(** * YouTubeLM front end: a shallow embedding of the client-side logic

    The functions below are transcribed from the TypeScript sources of the
    front end (components/Chat, components/VideoPlayer, services/api.ts and
    the streaming hooks).  JavaScript numbers are IEEE 754 binary64 values,
    represented by [spec_float] with the rounded operations of
    [Stdlib.Floats.SpecFloat] at precision 53 and maximal exponent 1024.
    Strings are [string]; the [Map] of validation results is a [gmap]. *)

From Stdlib Require Import ZArith Ascii String List Bool Lia.
From Stdlib Require Import SpecFloat DecimalString.
From Stdlib Require DecimalZ DecimalPos.
From stdpp Require Import base option list gmap.

Local Open Scope string_scope.
Local Open Scope Z_scope.

(** ** JavaScript numbers *)

Module JS.

Definition Number := spec_float.

Definition prec : Z := 53.
Definition emax : Z := 1024.

Definition Number_add : Number -> Number -> Number := SFadd prec emax.
Definition Number_mul : Number -> Number -> Number := SFmul prec emax.
Definition Number_div : Number -> Number -> Number := SFdiv prec emax.

(** An integer literal, or an array length, as the nearest binary64 value. *)
Definition Number_of_Z (z : Z) : Number := binary_normalize prec emax z 0 false.

(** An integral result, written with exponent 0.  [Math.floor] and
    [Math.round] return integral values, which are always representable;
    they are kept in this form, by value. *)
Definition integral (neg : bool) (z : Z) : Number :=
  match z with
  | Z0 => S754_zero neg
  | Zpos p => S754_finite false p 0
  | Zneg p => S754_finite true p 0
  end.

Definition isNaN (x : Number) : bool :=
  match x with S754_nan => true | _ => false end.

Definition isFinite (x : Number) : bool :=
  match x with S754_zero _ | S754_finite _ _ _ => true | _ => false end.

(** Truthiness of a number: [NaN], [+0] and [-0] are falsy. *)
Definition Number_truthy (x : Number) : bool :=
  match x with S754_nan | S754_zero _ => false | _ => true end.

(** [x < y], for operands in normal form. *)
Definition Number_lt : Number -> Number -> bool := SFltb.

(** [floor (m * 2^e)] for an integer [m]. *)
Definition floor_scaled (m e : Z) : Z :=
  if 0 <=? e then m * 2 ^ e else m / 2 ^ (- e).

(** The floor of a finite number, as an integer. *)
Definition floorZ (x : Number) : Z :=
  match x with
  | S754_finite s m e => floor_scaled (cond_Zopp s (Zpos m)) e
  | _ => 0
  end.

Definition Math_floor (x : Number) : Number :=
  match x with
  | S754_finite s m e => integral s (floor_scaled (cond_Zopp s (Zpos m)) e)
  | _ => x
  end.

(** [Math.round]: the nearest integer, ties towards +infinity, that is
    [floor (x + 1/2)] computed exactly. *)
Definition Math_round (x : Number) : Number :=
  match x with
  | S754_finite s m e =>
      let v := cond_Zopp s (Zpos m) in
      integral s (if 0 <=? e then v * 2 ^ e
                  else (v + 2 ^ (- e - 1)) / 2 ^ (- e))
  | _ => x
  end.

(** The remainder operator [n % d].  The result has the sign of the
    dividend and is exact (it is never rounded), so it is returned by value,
    as [r * 2^e] with [e] the smaller of the two exponents. *)
Definition Number_rem (n d : Number) : Number :=
  match n with
  | S754_nan | S754_infinity _ => S754_nan
  | S754_zero _ =>
      match d with
      | S754_nan | S754_zero _ => S754_nan
      | _ => n
      end
  | S754_finite sn mn en =>
      match d with
      | S754_nan | S754_zero _ => S754_nan
      | S754_infinity _ => n
      | S754_finite _ md ed =>
          let e := Z.min en ed in
          let r := (Zpos mn * 2 ^ (en - e)) mod (Zpos md * 2 ^ (ed - e)) in
          match r with
          | Zpos p => S754_finite sn p e
          | _ => S754_zero sn
          end
      end
  end.

(** *** [Number::toString], radix 10

    For a positive finite [x] the digits are the shortest decimal [s] (with
    [k] digits) and the exponent [n] such that [s * 10^(n-k)] rounds to [x];
    among several such [s] the one nearest to [x] is taken.  Values are
    compared exactly, as integers scaled by powers of two and ten. *)

Definition decimal (z : Z) : string := NilZero.string_of_int (Z.to_int z).

(** [compare (a * 10^t) (b * 2^g)]. *)
Definition cmp10_2 (a t b g : Z) : comparison :=
  (a * 10 ^ Z.max t 0 * 2 ^ Z.max (- g) 0
   ?= b * 2 ^ Z.max g 0 * 10 ^ Z.max (- t) 0).

(** [floor (b * 2^g / 10^t)]. *)
Definition div10_2 (b g t : Z) : Z :=
  (b * 2 ^ Z.max g 0 * 10 ^ Z.max (- t) 0)
  / (2 ^ Z.max (- g) 0 * 10 ^ Z.max t 0).

Record grid := {
  grid_exp : Z;   (* the grid step is 2^grid_exp, at most a quarter ulp *)
  grid_x : Z;     (* x on the grid *)
  grid_lo : Z;    (* half way down to the predecessor of x *)
  grid_hi : Z;    (* half way up to the successor of x *)
  grid_even : bool (* the significand of x is even: the bounds round to x *)
}.

Definition grid_of (m : positive) (e : Z) : grid :=
  let p := Zdigits2 (Zpos m) + e in
  let fe := fexp prec emax p in
  let g := Z.min e (fe - 2) in
  let X := Zpos m * 2 ^ (e - g) in
  let U := 2 ^ (fe - g) in
  let low := if (X =? 2 ^ (p - 1 - g)) && (emin prec emax <? fe)
             then U / 4 else U / 2 in
  {| grid_exp := g; grid_x := X; grid_lo := X - low; grid_hi := X + U / 2;
     grid_even := Z.even (X / U) |}.

(** Does [s * 10^t] round to [x]? *)
Definition rounds_to (G : grid) (s t : Z) : bool :=
  match cmp10_2 s t (grid_lo G) (grid_exp G),
        cmp10_2 s t (grid_hi G) (grid_exp G) with
  | Gt, Lt => true
  | Eq, _ | _, Eq => grid_even G
  | _, _ => false
  end.

(** The decimal exponent [n] with [10^(n-1) <= x < 10^n]: an estimate from
    the binary exponent, corrected by comparison. *)
Definition decimal_exponent (G : grid) (p : Z) : Z :=
  let fix_up n :=
    match cmp10_2 1 n (grid_x G) (grid_exp G) with
    | Gt => n - 1
    | _ => match cmp10_2 1 (n + 1) (grid_x G) (grid_exp G) with
           | Gt => n
           | _ => n + 1
           end
    end in
  fix_up (fix_up (fix_up ((p - 1) * 30103 / 100000))) + 1.

Fixpoint shortest (G : grid) (n : Z) (fuel : nat) (k : Z) : Z * Z * Z :=
  let t := n - k in
  let lo := div10_2 (grid_x G) (grid_exp G) t in
  let hi := lo + 1 in
  let ok_lo := rounds_to G lo t in
  let ok_hi := rounds_to G hi t in
  let up := if hi =? 10 ^ k then (10 ^ (k - 1), k, n + 1) else (hi, k, n) in
  match fuel with
  | O => (lo, k, n)
  | S fuel' =>
      if ok_lo && ok_hi then
        match cmp10_2 (lo + hi) t (2 * grid_x G) (grid_exp G) with
        | Gt => (lo, k, n)
        | Lt => up
        | Eq => if Z.even lo then (lo, k, n) else up
        end
      else if ok_lo then (lo, k, n)
      else if ok_hi then up
      else shortest G n fuel' (k + 1)
  end.

Fixpoint zeros (n : nat) : string :=
  match n with O => "" | S n' => String "0" (zeros n') end.

Definition substring_from (i : nat) (s : string) : string :=
  String.substring i (String.length s - i) s.

Definition exponent_suffix (n : Z) : string :=
  ("e" ++ (if (n - 1 <? 0)%Z then "-" else "+") ++ decimal (Z.abs (n - 1)))%string.

Definition format_digits (s k n : Z) : string :=
  let ds := decimal s in
  if (k <=? n) && (n <=? 21) then (ds ++ zeros (Z.to_nat (n - k)))%string
  else if (0 <? n) && (n <=? 21) then
    (String.substring 0 (Z.to_nat n) ds ++ "." ++
     substring_from (Z.to_nat n) ds)%string
  else if (-6 <? n) && (n <=? 0) then
    ("0." ++ zeros (Z.to_nat (- n)) ++ ds)%string
  else if k =? 1 then (ds ++ exponent_suffix n)%string
  else (String.substring 0 1 ds ++ "." ++ substring_from 1 ds ++
        exponent_suffix n)%string.

Definition shortest_decimal (s : bool) (m : positive) (e : Z) : string :=
  let G := grid_of m e in
  let n := decimal_exponent G (Zdigits2 (Zpos m) + e) in
  let '(d, k, n') := shortest G n 17 1 in
  ((if s then "-" else "") ++ format_digits d k n')%string.

(** The integer a number is equal to, if any. *)
Definition integer_value (x : Number) : option Z :=
  match x with
  | S754_zero _ => Some 0
  | S754_finite s m e =>
      if 0 <=? e then Some (cond_Zopp s (Zpos m * 2 ^ e))
      else if Zpos m mod 2 ^ (- e) =? 0
           then Some (cond_Zopp s (Zpos m / 2 ^ (- e)))
           else None
  | _ => None
  end.

(** Below 2^53 consecutive binary64 values are at most 1 apart, so the
    shortest digits of an integer are its own decimal digits: these are
    printed directly. *)
Definition Number_toString (x : Number) : string :=
  match x with
  | S754_nan => "NaN"
  | S754_zero _ => "0"
  | S754_infinity s => if s then "-Infinity" else "Infinity"
  | S754_finite s m e =>
      match integer_value x with
      | Some z => if Z.abs z <? 2 ^ 53 then decimal z
                  else shortest_decimal s m e
      | None => shortest_decimal s m e
      end
  end.

(** [String.prototype.padStart]. *)
Fixpoint repeat_to (n : nat) (pad cur : string) : string :=
  match n with
  | O => ""
  | S n' =>
      match cur with
      | EmptyString =>
          match pad with
          | EmptyString => ""
          | String c cur' => String c (repeat_to n' pad cur')
          end
      | String c cur' => String c (repeat_to n' pad cur')
      end
  end.

Definition padStart (target : nat) (pad : string) (s : string) : string :=
  if (target <=? String.length s)%nat then s
  else match pad with
       | EmptyString => s
       | _ => (repeat_to (target - String.length s) pad pad ++ s)%string
       end.

End JS.

Import JS.

(** The operator [a || b] on the operand types that occur in the sources. *)
Definition string_or (o : option string) (d : string) : string :=
  match o with
  | Some (String c s) => String c s
  | _ => d
  end.

Definition number_or (o : option Number) (d : Number) : Number :=
  match o with
  | Some x => if Number_truthy x then x else d
  | None => d
  end.

(** For arrays and objects, which are truthy whenever present. *)
Definition object_or {A} (o : option A) (d : A) : A :=
  match o with Some x => x | None => d end.

(** [o || null] for a string. *)
Definition string_or_null (o : option string) : option string :=
  match o with
  | Some (String c s) => Some (String c s)
  | _ => None
  end.

(** ** frontend/src/components/VideoPlayer/index.tsx *)

Module VideoPlayer.

Definition formatTime (seconds : Number) : string :=
  if negb (isFinite seconds) || isNaN seconds then "00:00"
  else
    let mins := Math_floor (Number_div seconds (Number_of_Z 60)) in
    let secs := Math_floor (Number_rem seconds (Number_of_Z 60)) in
    (padStart 2 "0" (Number_toString mins) ++ ":" ++
     padStart 2 "0" (Number_toString secs))%string.

End VideoPlayer.

(** ** frontend/src/types/index.ts *)

Record SourceReference := {
  index : Number;
  video_url : string;
  video_title : string;
  start_time : Number;
  end_time : Number;
  chapter : string;
  text : option string
}.

(** The fields of a question that the scoring code reads.  [question_type]
    is kept as the string it is at run time: the code only asks whether it
    is ['mcq']. *)
Record QuizQuestion := {
  question_index : Z;
  question_type : string
}.

(** [questions] is tested for presence by the code, hence the option. *)
Record Quiz := {
  num_questions : Z;
  questions : option (list QuizQuestion)
}.

Record QuizValidationResult := {
  is_correct : bool;
  llm_score : option Number
}.

(** ** frontend/src/components/Chat/QuizDisplay.tsx *)

Module QuizDisplay.

(** The store's [validationResults: Map<number, QuizValidationResult>]. *)
Abbreviation ValidationResults := (gmap Z QuizValidationResult).

Definition validationComplete (quiz : option Quiz)
    (validationResults : ValidationResults) : bool :=
  match quiz with
  | Some qz =>
      match questions qz with
      | Some qs =>
          forallb (fun q => bool_decide
                     (is_Some (validationResults !! question_index q))) qs
      | None => false
      end
  | None => false
  end.

(** One iteration of the [forEach] in [calculateScore]. *)
Definition add_score (validationResults : ValidationResults)
    (totalScore : Number) (q : QuizQuestion) : Number :=
  match validationResults !! question_index q with
  | None => totalScore
  | Some result =>
      if String.eqb (question_type q) "mcq"
      then Number_add totalScore
             (if is_correct result then Number_of_Z 100 else Number_of_Z 0)
      else Number_add totalScore
             (number_or (llm_score result) (Number_of_Z 0))
  end.

Definition calculateScore (quiz : option Quiz)
    (validationResults : ValidationResults) : option Number :=
  match quiz with
  | None => None
  | Some qz =>
      match questions qz with
      | None => None
      | Some qs =>
          if (size validationResults =? 0)%nat then None
          else
            let totalScore :=
              fold_left (add_score validationResults) qs (Number_of_Z 0) in
            let maxScore :=
              Number_mul (Number_of_Z (Z.of_nat (length qs)))
                         (Number_of_Z 100) in
            Some (Math_round
                    (Number_mul (Number_div totalScore maxScore)
                                (Number_of_Z 100)))
      end
  end.

(** The per-question badge computed while rendering the questions. *)
Definition questionScore (validationResults : ValidationResults)
    (question : QuizQuestion) : option Number :=
  match validationResults !! question_index question with
  | Some result =>
      Some (if String.eqb (question_type question) "mcq"
            then (if is_correct result then Number_of_Z 100
                  else Number_of_Z 0)
            else number_or (llm_score result) (Number_of_Z 0))
  | None => None
  end.

End QuizDisplay.

(** ** Citation markers: the regular expression [/\[(\d+)\]/g] *)

Module Citation.

Definition is_digit (c : ascii) : bool :=
  (48 <=? N_of_ascii c)%N && (N_of_ascii c <=? 57)%N.

Fixpoint all_chars (p : ascii -> bool) (s : string) : bool :=
  match s with
  | String c s' => p c && all_chars p s'
  | EmptyString => true
  end.

Definition not_bracket (c : ascii) : bool := negb (Ascii.eqb c "[").

(** The longest run of digits at the head of [s], and what follows it. *)
Fixpoint span_digits (s : string) : string * string :=
  match s with
  | String c s' =>
      if is_digit c
      then let '(ds, rest) := span_digits s' in (String c ds, rest)
      else (EmptyString, s)
  | EmptyString => (EmptyString, EmptyString)
  end.

(** A match of [\[(\d+)\]] starting at the head of [s]: the captured digits
    and the length of the whole match.  [\d+] is greedy and can only be
    followed by the closing bracket, so the capture is the longest run. *)
Definition match_here (s : string) : option (string * nat) :=
  match s with
  | String "[" s' =>
      match span_digits s' with
      | (String d ds, String "]" _) =>
          Some (String d ds, (String.length (String d ds) + 2)%nat)
      | _ => None
      end
  | _ => None
  end.

(** The integer that a run of decimal digits denotes. *)
Definition digits_value (ds : string) : Z :=
  let fix go (acc : Z) (s : string) : Z :=
    match s with
    | String c s' => go (10 * acc + (Z.of_N (N_of_ascii c) - 48)) s'
    | EmptyString => acc
    end in
  go 0 ds.

(** [parseInt] of a run of decimal digits, as the capture of the regular
    expression always is: the number nearest to the integer the digits
    denote, [Infinity] when that integer is too large.  (An engine is
    allowed to read the digits after the twentieth as zeros; they are read
    as they are.) *)
Definition parseInt (ds : string) : Number := Number_of_Z (digits_value ds).

Inductive effect :=
  | seek_video (timestamp : Number)
  | window_open (url target features : string).

(** What [processTextWithCitations] pushes on [parts]: a slice of the text,
    or a button whose click handler is
    [handleCitationClick(citationIndex, sources)]. *)
Inductive node :=
  | text_node (s : string)
  | citation_button (citationIndex : Number)
      (sources : list SourceReference).

(** The value returned: the fragment of parts, or the text itself when no
    part was pushed. *)
Inductive rendered :=
  | fragment (parts : list node)
  | plain_text (s : string).

Definition push_text (pending : string) : list node :=
  match pending with
  | EmptyString => []
  | _ => [text_node pending]
  end.

(** The [while ((match = citationRegex.exec(text)) !== null)] loop.  The
    text is walked from left to right; [pending] is
    [text.slice(lastIndex, position)] and [skip] counts the characters of
    the current match that are still to be passed, so that the search
    resumes at [regex.lastIndex]. *)
Fixpoint scan (sources : list SourceReference) (skip : nat)
    (pending rest : string) : list node :=
  match rest with
  | EmptyString => push_text pending
  | String c rest' =>
      match skip with
      | S k => scan sources k pending rest'
      | O =>
          match match_here rest with
          | Some (ds, len) =>
              (push_text pending ++
               citation_button (parseInt ds) sources ::
               scan sources (len - 1) EmptyString rest')%list
          | None =>
              scan sources O (pending ++ String c EmptyString)%string rest'
          end
      end
  end.


End Citation.

Import Citation.

(** ** frontend/src/components/Chat/Message.tsx *)

Module Message.

(** [onSeekVideo] tells whether the optional callback prop is provided;
    [sources] is [None] for [undefined]. *)
Definition handleCitationClick (onSeekVideo : bool) (index : Z)
    (sources : option (list SourceReference)) : list effect :=
  match sources with
  | None => []
  | Some srcs =>
      if Z.of_nat (length srcs) <? index then []
      else
        let source :=
          if index - 1 <? 0 then None else srcs !! Z.to_nat (index - 1) in
        match source with
        | None => []
        | Some source =>
            if onSeekVideo then [seek_video (start_time source)]
            else
              let url := (video_url source ++ "&t=" ++
                          Number_toString (start_time source) ++ "s")%string in
              [window_open url "_blank" "noopener,noreferrer"]
        end
  end.

Definition processTextWithCitations (text : string)
    (sources : list SourceReference) : rendered :=
  match scan sources O EmptyString text with
  | [] => plain_text text
  | parts => fragment parts
  end.

(** Which renderer [renderContentWithCitations] chooses: plain Markdown
    when there are no sources, otherwise Markdown whose paragraph and list
    item text children go through [processTextWithCitations]. *)
Inductive content_renderer :=
  | markdown_plain
  | markdown_with_citations (sources : list SourceReference).

Definition renderContentWithCitations
    (sources : option (list SourceReference)) : content_renderer :=
  match sources with
  | None | Some [] => markdown_plain
  | Some srcs => markdown_with_citations srcs
  end.

(** A text child of a paragraph or list item, as rendered. *)
Definition render_text_child (sources : option (list SourceReference))
    (child : string) : rendered :=
  match renderContentWithCitations sources with
  | markdown_plain => plain_text child
  | markdown_with_citations srcs => processTextWithCitations child srcs
  end.

(** Clicking a rendered part.  The button passes the number it carries to
    [handleCitationClick], which is written above for whole numbers; a
    number that is not whole ([Infinity] is the only one [parseInt] gives
    here) is greater than every length or indexes no element, so that the
    handler returns without any effect. *)
Definition click (onSeekVideo : bool) (n : node) : list effect :=
  match n with
  | text_node _ => []
  | citation_button citationIndex sources =>
      match integer_value citationIndex with
      | Some index => handleCitationClick onSeekVideo index (Some sources)
      | None => []
      end
  end.

End Message.

(** ** The component [VideoSummaryDisplay] (src/unnamed/part_001)

    The component repeats the two helpers of [Message]. *)

Module VideoSummaryDisplay.

Definition handleCitationClick (onSeekVideo : bool) (index : Z)
    (sources : option (list SourceReference)) : list effect :=
  match sources with
  | None => []
  | Some srcs =>
      if Z.of_nat (length srcs) <? index then []
      else
        let source :=
          if index - 1 <? 0 then None else srcs !! Z.to_nat (index - 1) in
        match source with
        | None => []
        | Some source =>
            if onSeekVideo then [seek_video (start_time source)]
            else
              let url := (video_url source ++ "&t=" ++
                          Number_toString (start_time source) ++ "s")%string in
              [window_open url "_blank" "noopener,noreferrer"]
        end
  end.

Definition processTextWithCitations (text : string)
    (sources : list SourceReference) : rendered :=
  match scan sources O EmptyString text with
  | [] => plain_text text
  | parts => fragment parts
  end.

(** Clicking a rendered part, as in [Message]. *)
Definition click (onSeekVideo : bool) (n : node) : list effect :=
  match n with
  | text_node _ => []
  | citation_button citationIndex sources =>
      match integer_value citationIndex with
      | Some index => handleCitationClick onSeekVideo index (Some sources)
      | None => []
      end
  end.

End VideoSummaryDisplay.

(** ** frontend/src/components/Chat/ChatInput.tsx *)

Module ChatInput.

(** [Array.prototype.indexOf] on an array of strings. *)
Fixpoint indexOf (l : list string) (x : string) (from : Z) : Z :=
  match l with
  | [] => -1
  | y :: l' => if String.eqb y x then from else indexOf l' x (from + 1)
  end.

Definition modes : list string := ["qa"; "video_summary"; "quiz"].

(** The mode passed to [onModeChange] ([None] would be [undefined]). *)
Definition handleModeCycle (currentMode : string) : option string :=
  let currentIndex := indexOf modes currentMode 0 in
  let nextIndex :=
    if 0 <=? currentIndex
    then Z.rem (currentIndex + 1) (Z.of_nat (length modes))
    else 0 in
  modes !! Z.to_nat nextIndex.

(** The predicate [(c) => c !== chapter]. *)
Definition other_than (chapter : string) : string -> bool :=
  fun c => negb (String.eqb c chapter).

(** The list passed to [onChaptersChange]. *)
Definition handleChapterToggle (selectedChapters : list string)
    (chapter : string) : list string :=
  if existsb (String.eqb chapter) selectedChapters
  then List.filter (other_than chapter) selectedChapters
  else (selectedChapters ++ [chapter])%list.

End ChatInput.

(** ** Server-sent events: reading a response body line by line *)

Module SSE.

Definition newline : ascii := "010"%char.

(** [s.split('\n')]: never empty. *)
Fixpoint split_newline (s : string) : list string :=
  match s with
  | EmptyString => [EmptyString]
  | String c s' =>
      if Ascii.eqb c newline then EmptyString :: split_newline s'
      else match split_newline s' with
           | h :: t => String c h :: t
           | [] => [String c EmptyString]
           end
  end.

(** [line.startsWith('data: ')] and [line.slice(6)]. *)
Definition data_payload (line : string) : option string :=
  if String.prefix "data: " line then Some (substring_from 6 line) else None.

(** The response of [fetch], as far as the readers look at it: a status
    that is not ok, a missing body, or a body delivered in decoded chunks
    whose reading ends normally ([None]) or is rejected with a message. *)
Inductive response :=
  | http_error (status : Z)
  | no_body
  | body (chunks : list string) (failure : option string).

End SSE.

Import SSE.

(** ** frontend/src/services/api.ts *)

Module Api.

Record VideoInfo := {
  video_id : string;
  title : string;
  chapter : string;
  video_url : string;
  duration : string;
  duration_seconds : Number
}.

Section Events.

(** [Src] is the element type of a [sources] array and [Any] the type of
    the untyped [result] payload. *)
Variables Src Any : Type.

(** The fields of a parsed payload that the front end reads: those of the
    interface [SSEEvent], and [progress], [result] and [quiz_id], which
    [useSSE] reads as well.  Every field may be missing. *)
Record SSEEvent := {
  type : option string;
  content : option string;
  sources : option (list Src);
  video_info : option VideoInfo;
  session_id : option string;
  error : option string;
  progress : option Number;
  result : option Any;
  quiz_id : option string
}.

(** A value returned by [JSON.parse]: [null], on which reading a property
    throws, or a value whose properties can be read (any other JSON value
    reads as an object without the fields above). *)
Inductive JSONValue :=
  | json_null
  | json_object (fields : SSEEvent).

(** [JSON.parse]: [None] when it throws a [SyntaxError]. *)
Variable JSON_parse : string -> option JSONValue.

(** The body of [for (const line of lines)] in [streamSSE]. *)
Definition yield_line (line : string) : list JSONValue :=
  match data_payload line with
  | Some payload =>
      match JSON_parse payload with
      | Some data => [data]
      | None => []
      end
  | None => []
  end.

(** The [while (true)] loop of [streamSSE]: the values yielded. *)
Fixpoint streamSSE_read (buffer : string) (chunks : list string)
    : list JSONValue :=
  match chunks with
  | [] => []
  | value :: chunks' =>
      let lines := split_newline (buffer ++ value)%string in
      let buffer' := List.last lines EmptyString in
      (flat_map yield_line (List.removelast lines) ++
       streamSSE_read buffer' chunks')%list
  end.

(** The values yielded by the generator, and the error it throws, if any. *)
Definition streamSSE (r : response) : list JSONValue * option string :=
  match r with
  | http_error status => ([], Some ("HTTP " ++ decimal status)%string)
  | no_body => ([], Some "No response body")
  | body chunks failure => (streamSSE_read EmptyString chunks, failure)
  end.

End Events.

Arguments type {Src Any} _.
Arguments content {Src Any} _.
Arguments sources {Src Any} _.
Arguments video_info {Src Any} _.
Arguments session_id {Src Any} _.
Arguments error {Src Any} _.
Arguments progress {Src Any} _.
Arguments result {Src Any} _.
Arguments quiz_id {Src Any} _.
Arguments json_null {Src Any}.
Arguments json_object {Src Any} _.
Arguments yield_line {Src Any} _ _.
Arguments streamSSE_read {Src Any} _ _ _.
Arguments streamSSE {Src Any} _ _.

End Api.

(** ** The API hooks (src/unnamed/part_007): [useQA], [useVideoSummary],
    [useQuiz] and their shared [handleSSEEvent] *)

Module UseApi.

Section Hooks.

Variables Src Any : Type.

Record StreamState := {
  isStreaming : bool;
  content : string;
  sources : list Src;
  videoInfo : option Api.VideoInfo;
  sessionId : option string;
  error : option string
}.

(** [setState(prev => ...)] is applied to the previous state.  An event
    type without a [case] leaves the state as it is. *)
Definition handleSSEEvent (event : Api.SSEEvent Src Any)
    (prev : StreamState) : StreamState :=
  let case t := match Api.type event with
              | Some t' => String.eqb t' t
              | None => false
              end in
  if case "token" then
    {| isStreaming := isStreaming prev;
       content := (content prev ++ string_or (Api.content event) "")%string;
       sources := sources prev;
       videoInfo := videoInfo prev;
       sessionId := sessionId prev;
       error := error prev |}
  else if case "sources" then
    {| isStreaming := isStreaming prev;
       content := content prev;
       sources := object_or (Api.sources event) [];
       videoInfo := videoInfo prev;
       sessionId := sessionId prev;
       error := error prev |}
  else if case "metadata" then
    {| isStreaming := isStreaming prev;
       content := content prev;
       sources := sources prev;
       videoInfo := Api.video_info event;
       sessionId := sessionId prev;
       error := error prev |}
  else if case "done" then
    {| isStreaming := false;
       content := content prev;
       sources := object_or (Api.sources event) (sources prev);
       videoInfo := videoInfo prev;
       sessionId := string_or_null (Api.session_id event);
       error := error prev |}
  else if case "cached" then
    {| isStreaming := false;
       content := string_or (Api.content event) "";
       sources := sources prev;
       videoInfo := Api.video_info event;
       sessionId := sessionId prev;
       error := error prev |}
  else if case "error" then
    {| isStreaming := false;
       content := content prev;
       sources := sources prev;
       videoInfo := videoInfo prev;
       sessionId := sessionId prev;
       error := Some (string_or (Api.content event) "Unknown error") |}
  else prev.

End Hooks.

Arguments isStreaming {Src} _.
Arguments content {Src} _.
Arguments sources {Src} _.
Arguments videoInfo {Src} _.
Arguments sessionId {Src} _.
Arguments error {Src} _.
Arguments handleSSEEvent {Src Any} _ _.

End UseApi.

(** ** The hook [useSSE] (src/unnamed/part_006) *)

Module UseSSE.

Section Stream.

Variables Src Any : Type.
Variable JSON_parse : string -> option (Api.JSONValue Src Any).

(** Which of the optional callbacks of [UseSSEOptions] are provided. *)
Record UseSSEOptions := {
  has_onProgress : bool;
  has_onValidation : bool
}.

Variable options : UseSSEOptions.

(** An invocation of one of the callbacks.  [startStream] is described by
    the sequence of invocations it makes; the callbacks are taken not to
    throw. *)
Inductive callback :=
  | onToken (token : string)
  | onProgress (progress : Number)
  | onValidation (result : option Any)
  | onDone (content : string) (sources : option (list Src))
           (sessionId quizId : option string)
  | onError (error : string).

(** The [let] variables of [startStream]. *)
Record variables := {
  content : string;
  sources : list Src;
  sessionId : option string;
  quizId : option string;
  progress : Number
}.

Definition initial : variables :=
  {| content := ""; sources := []; sessionId := None; quizId := None;
     progress := Number_of_Z 0 |}.

(** [options.onDone(content, sources.length > 0 ? sources : undefined,
    sessionId, quizId)]. *)
Definition call_onDone (v : variables) : callback :=
  onDone (content v)
         (if (0 <? length (sources v))%nat then Some (sources v) else None)
         (sessionId v) (quizId v).

(** The [try] block, for a payload that was parsed.  Reading [parsed.type]
    of [null] throws; the [catch] ignores it. *)
Definition dispatch (v : variables) (parsed : Api.JSONValue Src Any)
    : variables * list callback :=
  match parsed with
  | Api.json_null => (v, [])
  | Api.json_object ev =>
      let case t := match Api.type ev with
                    | Some t' => String.eqb t' t
                    | None => false
                    end in
      if case "token" then
        let token := string_or (Api.content ev) "" in
        ({| content := (content v ++ token)%string; sources := sources v;
            sessionId := sessionId v; quizId := quizId v;
            progress := progress v |},
         [onToken token])
      else if case "progress" then
        let p := number_or (Api.progress ev) (Number_of_Z 0) in
        ({| content := content v; sources := sources v;
            sessionId := sessionId v; quizId := quizId v; progress := p |},
         if has_onProgress options then [onProgress p] else [])
      else if case "validation" then
        (v, if has_onValidation options
            then [onValidation (Api.result ev)] else [])
      else if case "sources" then
        ({| content := content v;
            sources := object_or (Api.sources ev) [];
            sessionId := sessionId v; quizId := quizId v;
            progress := progress v |}, [])
      else if case "session_id" then
        ({| content := content v; sources := sources v;
            sessionId := Api.session_id ev; quizId := quizId v;
            progress := progress v |}, [])
      else if case "quiz_id" then
        ({| content := content v; sources := sources v;
            sessionId := sessionId v; quizId := Api.quiz_id ev;
            progress := progress v |}, [])
      else (v, [])
  end.

(** [for (const line of lines)]: the invocations made, and the variables
    afterwards, or [None] when the function returned at the sentinel. *)
Fixpoint for_lines (v : variables) (lines : list string)
    : list callback * option variables :=
  match lines with
  | [] => ([], Some v)
  | line :: lines' =>
      match data_payload line with
      | None => for_lines v lines'
      | Some data =>
          if String.eqb data "[DONE]" then ([call_onDone v], None)
          else
            match JSON_parse data with
            | None => for_lines v lines'
            | Some parsed =>
                let '(v', calls) := dispatch v parsed in
                let '(calls', after) := for_lines v' lines' in
                ((calls ++ calls')%list, after)
            end
      end
  end.

(** The [while (true)] loop and what follows it.  A rejected read ends in
    the outer [catch], with the message of the error (or ["Error"], the
    string of an error without message). *)
Fixpoint read_loop (buffer : string) (v : variables)
    (chunks : list string) (failure : option string) : list callback :=
  match chunks with
  | [] =>
      match failure with
      | None => [call_onDone v]
      | Some message => [onError (string_or (Some message) "Error")]
      end
  | value :: chunks' =>
      let lines := split_newline (buffer ++ value)%string in
      let buffer' := List.last lines EmptyString in
      match for_lines v (List.removelast lines) with
      | (calls, None) => calls
      | (calls, Some v') =>
          (calls ++ read_loop buffer' v' chunks' failure)%list
      end
  end.

Definition startStream (r : response) : list callback :=
  match r with
  | http_error status =>
      [onError ("HTTP error! status: " ++ decimal status)%string]
  | no_body => [onError "No response body"]
  | body chunks failure => read_loop EmptyString initial chunks failure
  end.

End Stream.

Arguments onToken {Src Any} _.
Arguments onProgress {Src Any} _.
Arguments onValidation {Src Any} _.
Arguments onDone {Src Any} _ _ _ _.
Arguments onError {Src Any} _.
Arguments content {Src} _.
Arguments sources {Src} _.
Arguments sessionId {Src} _.
Arguments quizId {Src} _.
Arguments progress {Src} _.
Arguments initial {Src}.
Arguments call_onDone {Src Any} _.
Arguments dispatch {Src Any} _ _ _.
Arguments for_lines {Src Any} _ _ _ _.
Arguments read_loop {Src Any} _ _ _ _ _ _.
Arguments startStream {Src Any} _ _ _.

End UseSSE.

(** ** The stream as a sequence of lines

    Reference descriptions of what the two readers do, in terms of the
    lines of the whole body; the properties below relate the loops to
    them. *)

Module Lines.

Definition join (chunks : list string) : string :=
  fold_right String.append EmptyString chunks.

(** The lines that are terminated by a newline. *)
Definition complete_lines (s : string) : list string :=
  List.removelast (split_newline s).

Definition no_newline (s : string) : bool :=
  all_chars (fun c => negb (Ascii.eqb c newline)) s.

(** The line [data: [DONE]]. *)
Definition is_done (line : string) : bool :=
  match data_payload line with
  | Some data => String.eqb data "[DONE]"
  | None => false
  end.

Fixpoint before_done (lines : list string) : list string :=
  match lines with
  | [] => []
  | line :: lines' =>
      if is_done line then [] else line :: before_done lines'
  end.

Definition has_done (lines : list string) : bool := existsb is_done lines.

Section Events.

Variables Src Any : Type.
Variable JSON_parse : string -> option (Api.JSONValue Src Any).
Variable options : UseSSE.UseSSEOptions.

(** The value a line carries: it starts with [data: ] and its payload is
    parsed. *)
Definition event_of_line (line : string) : option (Api.JSONValue Src Any) :=
  data_payload line ≫= JSON_parse.

(** The content of a token event, with the empty string for a missing
    content. *)
Definition token_content (parsed : Api.JSONValue Src Any) : option string :=
  match parsed with
  | Api.json_null => None
  | Api.json_object ev =>
      match Api.type ev with
      | Some t =>
          if String.eqb t "token" then Some (string_or (Api.content ev) "")
          else None
      | None => None
      end
  end.

Definition tokens (lines : list string) : list string :=
  omap (fun line => event_of_line line ≫= token_content) (before_done lines).

(** Dispatching a list of parsed values in order. *)
Fixpoint dispatch_all (v : UseSSE.variables Src)
    (events : list (Api.JSONValue Src Any))
    : UseSSE.variables Src * list (UseSSE.callback Src Any) :=
  match events with
  | [] => (v, [])
  | parsed :: events' =>
      let '(v', calls) := UseSSE.dispatch options v parsed in
      let '(v'', calls') := dispatch_all v' events' in
      (v'', (calls ++ calls')%list)
  end.

(** The last invocation: [onDone], unless the reading failed before the
    sentinel was seen. *)
Definition final_call (done : bool) (failure : option string)
    (v : UseSSE.variables Src) : UseSSE.callback Src Any :=
  match failure with
  | Some message =>
      if done then UseSSE.call_onDone v
      else UseSSE.onError (string_or (Some message) "Error")
  | None => UseSSE.call_onDone v
  end.

Definition is_onDone (c : UseSSE.callback Src Any) : bool :=
  match c with UseSSE.onDone _ _ _ _ => true | _ => false end.

Definition onToken_argument (c : UseSSE.callback Src Any) : option string :=
  match c with UseSSE.onToken token => Some token | _ => None end.

End Events.

Arguments event_of_line {Src Any} _ _.
Arguments token_content {Src Any} _.
Arguments tokens {Src Any} _ _.
Arguments dispatch_all {Src Any} _ _ _.
Arguments final_call {Src Any} _ _ _.
Arguments is_onDone {Src Any} _.
Arguments onToken_argument {Src Any} _.

End Lines.

(** ** More of the number operators *)

Definition Number_sub : Number -> Number -> Number := SFsub prec emax.

(** [x >= y] and [x > y], for operands in normal form; both are false when
    an operand is [NaN]. *)
Definition Number_ge (x y : Number) : bool := SFleb y x.
Definition Number_gt (x y : Number) : bool := SFltb y x.
Definition Number_le (x y : Number) : bool := SFleb x y.

(** The mantissa of the binary64 number equal to a positive integer below
    2^53: the integer shifted to 53 bits. *)
Definition normal_mantissa (N : positive) : positive :=
  match (53 - Z.pos (digits2_pos N))%Z with
  | Z.pos d => Pos.iter xO N d
  | _ => N
  end.

(** [Math.min(a, b)] and [Math.max(a, b)]: [NaN] when an argument is
    [NaN]; [-0] counts as less than [+0]. *)
Definition Math_min (a b : Number) : Number :=
  if isNaN a || isNaN b then S754_nan
  else if Number_lt b a then b
  else match a, b with
       | S754_zero false, S754_zero true => b
       | _, _ => a
       end.

Definition Math_max (a b : Number) : Number :=
  if isNaN a || isNaN b then S754_nan
  else if Number_lt a b then b
  else match a, b with
       | S754_zero true, S754_zero false => b
       | _, _ => a
       end.

(** ** The component [SourcesModal] (src/unnamed/part_002) *)

Module SourcesModal.

Definition handleSourceClick (source : SourceReference) : list effect :=
  let url := (video_url source ++ "&t=" ++
              Number_toString (start_time source) ++ "s")%string in
  [window_open url "_blank" "noopener,noreferrer"].

Definition formatTime (seconds : Number) : string :=
  let mins := Math_floor (Number_div seconds (Number_of_Z 60)) in
  let secs := Number_rem seconds (Number_of_Z 60) in
  (Number_toString mins ++ ":" ++
   padStart 2 "0" (Number_toString secs))%string.

End SourcesModal.

(** ** The quiz store (src/unnamed/part_008, [useQuizStore]) *)

Module QuizStore.

Record QuizState := {
  currentQuiz : option Quiz;
  persistedQuizId : option string;
  isGenerating : bool;
  generationProgress : Number;
  isValidating : bool;
  selectedChapters : list string;
  userAnswers : gmap Z string;
  validationResults : gmap Z QuizValidationResult
}.

Definition initial : QuizState :=
  {| currentQuiz := None; persistedQuizId := None; isGenerating := false;
     generationProgress := Number_of_Z 0; isValidating := false;
     selectedChapters := []; userAnswers := ∅; validationResults := ∅ |}.

Definition addValidationResult (questionIndex : Z)
    (result : QuizValidationResult) (st : QuizState) : QuizState :=
  {| currentQuiz := currentQuiz st; persistedQuizId := persistedQuizId st;
     isGenerating := isGenerating st;
     generationProgress := generationProgress st;
     isValidating := isValidating st;
     selectedChapters := selectedChapters st;
     userAnswers := userAnswers st;
     validationResults := <[questionIndex := result]> (validationResults st) |}.

Definition clearValidationResults (st : QuizState) : QuizState :=
  {| currentQuiz := currentQuiz st; persistedQuizId := persistedQuizId st;
     isGenerating := isGenerating st;
     generationProgress := generationProgress st;
     isValidating := isValidating st;
     selectedChapters := selectedChapters st;
     userAnswers := userAnswers st;
     validationResults := ∅ |}.

Definition setAnswer (questionIndex : Z) (answer : string)
    (st : QuizState) : QuizState :=
  {| currentQuiz := currentQuiz st; persistedQuizId := persistedQuizId st;
     isGenerating := isGenerating st;
     generationProgress := generationProgress st;
     isValidating := isValidating st;
     selectedChapters := selectedChapters st;
     userAnswers := <[questionIndex := answer]> (userAnswers st);
     validationResults := validationResults st |}.

Definition clearAnswers (st : QuizState) : QuizState :=
  {| currentQuiz := currentQuiz st; persistedQuizId := persistedQuizId st;
     isGenerating := isGenerating st;
     generationProgress := generationProgress st;
     isValidating := isValidating st;
     selectedChapters := selectedChapters st;
     userAnswers := ∅;
     validationResults := validationResults st |}.

(** [resetQuiz] leaves the selected chapters as they are. *)
Definition resetQuiz (st : QuizState) : QuizState :=
  {| currentQuiz := None; persistedQuizId := None; isGenerating := false;
     generationProgress := Number_of_Z 0; isValidating := false;
     selectedChapters := selectedChapters st;
     userAnswers := ∅; validationResults := ∅ |}.

(** A round of the quiz as the display drives the store: [setAnswer] for
    each question in turn, then [addValidationResult] for each. *)
Definition answer_all (answer_for : QuizQuestion -> string)
    (qs : list QuizQuestion) (st : QuizState) : QuizState :=
  fold_left (fun s q => setAnswer (question_index q) (answer_for q) s) qs st.

Definition validate_all (result_for : QuizQuestion -> QuizValidationResult)
    (qs : list QuizQuestion) (st : QuizState) : QuizState :=
  fold_left
    (fun s q => addValidationResult (question_index q) (result_for q) s) qs st.

End QuizStore.

(** ** More of frontend/src/components/Chat/QuizDisplay.tsx *)

Module QuizView.

Definition getAnswer (userAnswers : gmap Z string) (questionIndex : Z)
    : string :=
  string_or (userAnswers !! questionIndex) "".

Definition allAnswered (quiz : option Quiz) (userAnswers : gmap Z string)
    : bool :=
  match quiz with
  | Some qz =>
      match questions qz with
      | Some qs =>
          forallb (fun q => bool_decide
                     (is_Some (userAnswers !! question_index q))) qs
      | None => false
      end
  | None => false
  end.

(** [result?.llm_score && result.llm_score >= bound]. *)
Definition score_at_least (result : option QuizValidationResult)
    (bound : Z) : bool :=
  match result ≫= llm_score with
  | Some x => Number_truthy x && Number_ge x (Number_of_Z bound)
  | None => false
  end.

Definition getAlertStatus (result : option QuizValidationResult) : string :=
  if score_at_least result 70 then "success"
  else if score_at_least result 50 then "warning"
  else "error".

(** The colour classes of the score badge of a question. *)
Definition scoreBadgeColor (questionScore : option Number) : string :=
  match questionScore with
  | Some s =>
      if Number_ge s (Number_of_Z 70)
      then "bg-green-100 dark:bg-green-900 text-green-800 dark:text-green-200"
      else if Number_ge s (Number_of_Z 50)
      then "bg-yellow-100 dark:bg-yellow-900 text-yellow-800 dark:text-yellow-200"
      else "bg-red-100 dark:bg-red-900 text-red-800 dark:text-red-200"
  | None => ""
  end.

(** [renderVideoSource], of the fields of the question it reads: nothing
    without a video id and address, otherwise the address of the link and
    the text of the time label. *)
Definition renderVideoSource (video_id video_url : option string)
    (timestamp : option Number) : option (string * string) :=
  match string_or video_id "", string_or video_url "" with
  | String _ _, String c url =>
      let timestamp := number_or timestamp (Number_of_Z 0) in
      let videoUrl :=
        (String c url ++ "&t=" ++ Number_toString timestamp ++ "s")%string in
      Some (videoUrl,
            ("(" ++
             Number_toString
               (Math_floor (Number_div timestamp (Number_of_Z 60))) ++ ":" ++
             padStart 2 "0"
               (Number_toString (Number_rem timestamp (Number_of_Z 60))) ++
             ")")%string)
  | _, _ => None
  end.

End QuizView.

(** ** More of frontend/src/components/Chat/ChatInput.tsx

    [String.prototype.trim] is a parameter. *)

Module ChatInputSend.

Section Send.

Variable trim : string -> string.

Definition truthy (s : string) : bool :=
  match s with EmptyString => false | _ => true end.

Definition selected (selectedVideo : option string) : bool :=
  match selectedVideo with Some v => truthy v | None => false end.

(** The argument of the call of [onSend], if it is made, and the input
    field afterwards. *)
Definition handleSend (currentMode : string) (selectedVideo : option string)
    (isStreaming : bool) (input : string) : option string * string :=
  if String.eqb currentMode "video_summary" then
    if selected selectedVideo && negb isStreaming
    then (Some "__VIDEO_SUMMARY_REGENERATE__", input)
    else (None, input)
  else if String.eqb currentMode "quiz" then
    if negb isStreaming
    then (Some (string_or (Some (trim input)) "__QUIZ_GENERATE__"),
          EmptyString)
    else (None, input)
  else if truthy (trim input) && negb isStreaming
  then (Some (trim input), EmptyString)
  else (None, input).

Definition handleKeyPress (key : string) (shiftKey : bool)
    (currentMode : string) (selectedVideo : option string)
    (isStreaming : bool) (input : string) : option string * string :=
  if String.eqb key "Enter" && negb shiftKey
  then handleSend currentMode selectedVideo isStreaming input
  else (None, input).

(** The [disabled] attribute of the send button. *)
Definition send_disabled (currentMode : string)
    (selectedVideo : option string) (isStreaming : bool) (input : string)
    : bool :=
  if String.eqb currentMode "video_summary"
  then negb (selected selectedVideo) || isStreaming
  else if String.eqb currentMode "quiz" then isStreaming
  else if String.eqb currentMode "qa"
  then negb (truthy (trim input)) || isStreaming
  else isStreaming.

End Send.

End ChatInputSend.

(** The two buttons beside the field for the number of quiz questions: the
    number each passes to [onQuizNumQuestionsChange], and its [disabled]
    attribute. *)
Module QuizStepper.

Definition increment (quizNumQuestions : Number) : Number :=
  Math_min (Number_of_Z 20) (Number_add quizNumQuestions (Number_of_Z 1)).

Definition increment_disabled (isStreaming : bool)
    (quizNumQuestions : Number) : bool :=
  isStreaming || Number_ge quizNumQuestions (Number_of_Z 20).

Definition decrement (quizNumQuestions : Number) : Number :=
  Math_max (Number_of_Z 1) (Number_sub quizNumQuestions (Number_of_Z 1)).

Definition decrement_disabled (isStreaming : bool)
    (quizNumQuestions : Number) : bool :=
  isStreaming || Number_le quizNumQuestions (Number_of_Z 1).

End QuizStepper.

(** ** frontend/src/components/shared/ResizablePanels.tsx *)

Module ResizablePanels.

(** The sizes set by [handleMouseMove] while a resize is in progress. *)
Definition handleMouseMove (containerSize currentPos startPos : Number)
    (startSizes minSizes : Number * Number) : Number * Number :=
  let delta := Number_sub currentPos startPos in
  let deltaPercent :=
    Number_mul (Number_div delta containerSize) (Number_of_Z 100) in
  let '(firstSize, secondSize) := startSizes in
  let newFirstSize := Number_add firstSize deltaPercent in
  let newSecondSize := Number_sub secondSize deltaPercent in
  let '(minFirst, minSecond) := minSizes in
  if Number_lt newFirstSize minFirst
  then (minFirst, Number_sub (Number_of_Z 100) minFirst)
  else if Number_lt newSecondSize minSecond
  then (Number_sub (Number_of_Z 100) minSecond, minSecond)
  else (newFirstSize, newSecondSize).

End ResizablePanels.

(** ** The hook [useToast] (src/unnamed/part_008) *)

Module Toast.

Record ToastOptions := {
  title : string;
  description : option string;
  status : option string;
  duration : option Number;
  isClosable : option bool
}.

Record Toast := {
  id : string;
  toast_title : string;
  toast_description : option string;
  toast_status : string;
  toast_duration : Number;
  toast_isClosable : bool
}.

(** The module-level counter [toastIdCounter], a number that starts at 0,
    and the list held by the hook. *)
Record ToastState := {
  toastIdCounter : Number;
  toasts : list Toast
}.

Definition initial : ToastState :=
  {| toastIdCounter := Number_of_Z 0; toasts := [] |}.

(** [`toast-${n}`]. *)
Definition toast_id (n : Number) : string :=
  ("toast-" ++ Number_toString n)%string.

(** [toast(options)]: the id returned, the delay of the removal timer when
    one is set, and the state afterwards. *)
Definition toast (options : ToastOptions) (st : ToastState)
    : string * option Number * ToastState :=
  let id := toast_id (toastIdCounter st) in
  let newToast :=
    {| id := id;
       toast_title := title options;
       toast_description := description options;
       toast_status := string_or (status options) "info";
       toast_duration := number_or (duration options) (Number_of_Z 3000);
       toast_isClosable := match isClosable options with
                           | Some false => false
                           | _ => true
                           end |} in
  let timer :=
    if Number_gt (toast_duration newToast) (Number_of_Z 0)
    then Some (toast_duration newToast) else None in
  (id, timer,
   {| toastIdCounter := Number_add (toastIdCounter st) (Number_of_Z 1);
      toasts := (toasts st ++ [newToast])%list |}).

(** [removeToast(id)], which is also what the timer does. *)
Definition removeToast (i : string) (st : ToastState) : ToastState :=
  {| toastIdCounter := toastIdCounter st;
     toasts := List.filter (fun t => negb (String.eqb (id t) i)) (toasts st) |}.

(** The counter stands at the whole number [n], below 2^53, and every toast
    of the list was numbered by an earlier value of the counter. *)
Definition numbered (n : Z) (st : ToastState) : Prop :=
  toastIdCounter st = Number_of_Z n /\ 0 <= n < 2 ^ 53 /\
  forall t, In t (toasts st) ->
    exists k, 0 <= k < n /\ id t = toast_id (Number_of_Z k).

End Toast.

(** ** The component [ColorModeSwitcher] (src/unnamed/part_003) *)

Module ColorModeSwitcher.

(** The mode chosen when the component mounts, from the stored item
    ([None] for [null]) and the preference of the system. *)
Definition shouldBeDark (stored : option string) (prefersDark : bool) : bool :=
  match stored with
  | Some s => String.eqb s "dark" ||
              (match s with EmptyString => prefersDark | _ => false end)
  | None => prefersDark
  end.

(** [toggleColorMode]: the new mode and the item stored. *)
Definition toggleColorMode (isDark : bool) : bool * option string :=
  let newMode := negb isDark in
  (newMode, Some (if newMode then "dark" else "light")).

End ColorModeSwitcher.

(** ** The chat store (src/unnamed/part_009, [useChatStore]) *)

Module ChatStore.

Section Store.

Variables ChatMessage ChatSession : Type.

Record ChatState := {
  currentMode : string;
  messages : list ChatMessage;
  currentSession : option ChatSession;
  isStreaming : bool;
  streamingContent : string;
  selectedChapters : list string;
  selectedVideo : option string
}.

Definition addMessage (message : ChatMessage) (st : ChatState) : ChatState :=
  {| currentMode := currentMode st;
     messages := (messages st ++ [message])%list;
     currentSession := currentSession st;
     isStreaming := isStreaming st;
     streamingContent := streamingContent st;
     selectedChapters := selectedChapters st;
     selectedVideo := selectedVideo st |}.

Definition appendStreamingContent (content : string) (st : ChatState)
    : ChatState :=
  {| currentMode := currentMode st;
     messages := messages st;
     currentSession := currentSession st;
     isStreaming := isStreaming st;
     streamingContent := (streamingContent st ++ content)%string;
     selectedChapters := selectedChapters st;
     selectedVideo := selectedVideo st |}.

Definition resetStreamingContent (st : ChatState) : ChatState :=
  {| currentMode := currentMode st;
     messages := messages st;
     currentSession := currentSession st;
     isStreaming := isStreaming st;
     streamingContent := EmptyString;
     selectedChapters := selectedChapters st;
     selectedVideo := selectedVideo st |}.

(** Calls of these three actions, in the order they are made. *)
Inductive action :=
  | add_message (message : ChatMessage)
  | append_content (content : string)
  | reset_content.

Definition step (st : ChatState) (a : action) : ChatState :=
  match a with
  | add_message message => addMessage message st
  | append_content content => appendStreamingContent content st
  | reset_content => resetStreamingContent st
  end.

Definition run (actions : list action) (st : ChatState) : ChatState :=
  fold_left step actions st.

Definition added (a : action) : option ChatMessage :=
  match a with add_message message => Some message | _ => None end.

Definition appended (a : action) : option string :=
  match a with append_content content => Some content | _ => None end.

Definition is_reset (a : action) : bool :=
  match a with reset_content => true | _ => false end.

End Store.

Arguments currentMode {ChatMessage ChatSession} _.
Arguments messages {ChatMessage ChatSession} _.
Arguments currentSession {ChatMessage ChatSession} _.
Arguments isStreaming {ChatMessage ChatSession} _.
Arguments streamingContent {ChatMessage ChatSession} _.
Arguments selectedChapters {ChatMessage ChatSession} _.
Arguments selectedVideo {ChatMessage ChatSession} _.
Arguments addMessage {ChatMessage ChatSession} _ _.
Arguments appendStreamingContent {ChatMessage ChatSession} _ _.
Arguments resetStreamingContent {ChatMessage ChatSession} _.
Arguments add_message {ChatMessage} _.
Arguments append_content {ChatMessage} _.
Arguments reset_content {ChatMessage}.
Arguments step {ChatMessage ChatSession} _ _.
Arguments run {ChatMessage ChatSession} _ _.
Arguments added {ChatMessage} _.
Arguments appended {ChatMessage} _.
Arguments is_reset {ChatMessage} _.

End ChatStore.

(** ** The hooks [useQA], [useVideoSummary] and [useQuiz]
    (src/unnamed/part_007) *)

Module Hooks.

Section Run.

Variables Src Any : Type.
Variable JSON_parse : string -> option (Api.JSONValue Src Any).

(** The message of the [TypeError] thrown when [event.type] is read on
    [null]; its wording depends on the engine. *)
Variable TypeError_message : string.

Implicit Types (prev st : UseApi.StreamState Src).

(** The state set before the request is made: by [ask] and [followup]... *)
Definition start_question prev : UseApi.StreamState Src :=
  {| UseApi.isStreaming := true; UseApi.content := "";
     UseApi.sources := []; UseApi.videoInfo := UseApi.videoInfo prev;
     UseApi.sessionId := UseApi.sessionId prev; UseApi.error := None |}.

(** ... by [summarize]... *)
Definition start_summary prev : UseApi.StreamState Src :=
  {| UseApi.isStreaming := true; UseApi.content := "";
     UseApi.sources := UseApi.sources prev; UseApi.videoInfo := None;
     UseApi.sessionId := UseApi.sessionId prev; UseApi.error := None |}.

(** ... and by [summarizeChapter] and [generate]. *)
Definition start_content prev : UseApi.StreamState Src :=
  {| UseApi.isStreaming := true; UseApi.content := "";
     UseApi.sources := UseApi.sources prev;
     UseApi.videoInfo := UseApi.videoInfo prev;
     UseApi.sessionId := UseApi.sessionId prev; UseApi.error := None |}.

(** The [catch] block: [err] is an [Error] with the given message. *)
Definition catch (message : string) st : UseApi.StreamState Src :=
  {| UseApi.isStreaming := false; UseApi.content := UseApi.content st;
     UseApi.sources := UseApi.sources st;
     UseApi.videoInfo := UseApi.videoInfo st;
     UseApi.sessionId := UseApi.sessionId st;
     UseApi.error := Some message |}.

(** [for await (const event of stream) handleSSEEvent(event, setState)]:
    the state reached and the error thrown, if any. *)
Fixpoint handle_events (events : list (Api.JSONValue Src Any)) st
    : UseApi.StreamState Src * option string :=
  match events with
  | [] => (st, None)
  | Api.json_null :: _ => (st, Some TypeError_message)
  | Api.json_object event :: events' =>
      handle_events events' (UseApi.handleSSEEvent event st)
  end.

(** Handling a sequence of events that are objects. *)
Definition handle_all (events : list (Api.SSEEvent Src Any)) st
    : UseApi.StreamState Src :=
  fold_left (fun st event => UseApi.handleSSEEvent event st) events st.

(** The [try] and [catch] of a hook, from the state set at its start. *)
Definition consume (r : response) st : UseApi.StreamState Src :=
  let '(events, thrown) := Api.streamSSE JSON_parse r in
  match handle_events events st with
  | (st', Some message) => catch message st'
  | (st', None) =>
      match thrown with
      | Some message => catch message st'
      | None => st'
      end
  end.

Definition ask (r : response) prev := consume r (start_question prev).
Definition followup (r : response) prev := consume r (start_question prev).
Definition summarize (r : response) prev := consume r (start_summary prev).
Definition summarizeChapter (r : response) prev :=
  consume r (start_content prev).
Definition generate (r : response) prev := consume r (start_content prev).

(** A value that ends the spinner: an event of type [done], [cached] or
    [error], or [null]. *)
Definition ends_streaming (parsed : Api.JSONValue Src Any) : bool :=
  match parsed with
  | Api.json_null => true
  | Api.json_object event =>
      match Api.type event with
      | Some t => String.eqb t "done" || String.eqb t "cached" ||
                  String.eqb t "error"
      | None => false
      end
  end.

Definition has_type (t : string) (parsed : Api.JSONValue Src Any) : bool :=
  match parsed with
  | Api.json_null => false
  | Api.json_object event =>
      match Api.type event with
      | Some t' => String.eqb t' t
      | None => false
      end
  end.

Definition is_null (parsed : Api.JSONValue Src Any) : bool :=
  match parsed with Api.json_null => true | _ => false end.

End Run.

Arguments handle_events {Src Any} _ _ _.
Arguments handle_all {Src Any} _ _.
Arguments consume {Src Any} _ _ _ _.
Arguments ask {Src Any} _ _ _ _.
Arguments followup {Src Any} _ _ _ _.
Arguments summarize {Src Any} _ _ _ _.
Arguments summarizeChapter {Src Any} _ _ _ _.
Arguments generate {Src Any} _ _ _ _.
Arguments start_question {Src} _.
Arguments start_summary {Src} _.
Arguments start_content {Src} _.
Arguments catch {Src} _ _.
Arguments ends_streaming {Src Any} _.
Arguments has_type {Src Any} _ _.
Arguments is_null {Src Any} _.

End Hooks.

(** ** Sample data *)

Module Examples.

Definition mcq_question (i : Z) : QuizQuestion :=
  {| question_index := i; question_type := "mcq" |}.

Definition open_question (i : Z) : QuizQuestion :=
  {| question_index := i; question_type := "open_ended" |}.

Definition mcq_result (correct : bool) : QuizValidationResult :=
  {| is_correct := correct; llm_score := None |}.

Definition open_result (score : Z) : QuizValidationResult :=
  {| is_correct := false; llm_score := Some (Number_of_Z score) |}.

(** Four multiple-choice questions, three of them answered correctly, and
    one open-ended question scored 80. *)
Definition quiz_4_1 : Quiz :=
  {| num_questions := 5;
     questions := Some [mcq_question 0; mcq_question 1; mcq_question 2;
                        mcq_question 3; open_question 4] |}.

Definition results_4_1 : QuizDisplay.ValidationResults :=
  <[0 := mcq_result true]> (<[1 := mcq_result true]>
  (<[2 := mcq_result true]> (<[3 := mcq_result false]>
  (<[4 := open_result 80]> ∅)))).

(** Two open-ended questions scored 14 and 15. *)
Definition quiz_2 : Quiz :=
  {| num_questions := 2;
     questions := Some [open_question 0; open_question 1] |}.

Definition results_2 : QuizDisplay.ValidationResults :=
  <[0 := open_result 14]> (<[1 := open_result 15]> ∅).

Definition source_at (url : string) (t : Z) : SourceReference :=
  {| index := Number_of_Z 1; video_url := url; video_title := "Lecture";
     start_time := Number_of_Z t; end_time := Number_of_Z (t + 30);
     chapter := "Chapter 1"; text := None |}.

Definition lecture : SourceReference :=
  source_at "https://www.youtube.com/watch?v=abc" 90.

Definition token_event (c : option string) : Api.SSEEvent unit unit :=
  {| Api.type := Some "token"; Api.content := c; Api.sources := None;
     Api.video_info := None; Api.session_id := None; Api.error := None;
     Api.progress := None; Api.result := None; Api.quiz_id := None |}.

Definition typed_event (t : string) (c : option string)
    : Api.SSEEvent unit unit :=
  {| Api.type := Some t; Api.content := c; Api.sources := None;
     Api.video_info := None; Api.session_id := None; Api.error := None;
     Api.progress := None; Api.result := None; Api.quiz_id := None |}.

Definition quoted (s : string) : string :=
  (String "034" s ++ String "034" "")%string.

(** The payload [{"type":"token","content":c}]. *)
Definition token_payload (c : string) : string :=
  ("{" ++ quoted "type" ++ ":" ++ quoted "token" ++ "," ++
   quoted "content" ++ ":" ++ quoted c ++ "}")%string.

(** [JSON.parse] on the payloads used in the examples: two token payloads
    and [null]; the other strings that occur there are not JSON. *)
Definition JSON_parse_sample (s : string)
    : option (Api.JSONValue unit unit) :=
  if String.eqb s (token_payload "Hel")
  then Some (Api.json_object (token_event (Some "Hel")))
  else if String.eqb s (token_payload "lo")
  then Some (Api.json_object (token_event (Some "lo")))
  else if String.eqb s "null" then Some Api.json_null
  else None.

Definition line (s : string) : string :=
  (s ++ String newline "")%string.

(** The sentinel line followed by a token line. *)
Definition done_then_token : string :=
  (line "data: [DONE]" ++ line ("data: " ++ token_payload "Hel"))%string.

(** Two token lines split over three chunks, with a comment line, a line
    that is not JSON and an unterminated last line. *)
Definition hello_chunks : list string :=
  [ (line ": ping" ++ "data: ")%string;
    (line (token_payload "Hel") ++ line "data: {broken" ++ "da")%string;
    (line ("ta: " ++ token_payload "lo") ++ "data: null")%string ].

Definition all_callbacks : UseSSE.UseSSEOptions :=
  {| UseSSE.has_onProgress := true; UseSSE.has_onValidation := true |}.

Definition idle : UseApi.StreamState unit :=
  {| UseApi.isStreaming := true; UseApi.content := "partial";
     UseApi.sources := [tt]; UseApi.videoInfo := None;
     UseApi.sessionId := Some "s1"; UseApi.error := None |}.

End Examples.

(** * Properties *)

Local Arguments String.append !_ _ / : simpl nomatch.

(** ** Whole numbers in binary64

    Integers below 2^53 are binary64 values, and adding one to them is
    exact; from 2^53 on the nearest value is at least 2^53. *)

Section WholeNumbers.

Lemma iter_pos_iter {A} (f : A -> A) (p : positive) (x : A) :
  SpecFloat.iter_pos f p x = Pos.iter f x p.
Proof.
  revert x; induction p as [p IH|p IH|]; intros x; cbn [SpecFloat.iter_pos Pos.iter].
  - rewrite !IH, <- !Pos.iter_swap; reflexivity.
  - rewrite !IH; reflexivity.
  - reflexivity.
Qed.

Lemma iter_xO_value (m d : positive) :
  Z.pos (Pos.iter xO m d) = Z.pos m * 2 ^ Z.pos d.
Proof.
  induction d as [|d IH] using Pos.peano_ind.
  - cbn [Pos.iter]; lia.
  - rewrite Pos.iter_succ, Pos2Z.inj_xO, IH, Pos2Z.inj_succ, Z.pow_succ_r by lia.
    ring.
Qed.

Lemma iter_xO_digits (m d : positive) :
  digits2_pos (Pos.iter xO m d) = (digits2_pos m + d)%positive.
Proof.
  induction d as [|d IH] using Pos.peano_ind.
  - cbn [Pos.iter digits2_pos]; lia.
  - rewrite Pos.iter_succ; cbn [digits2_pos]; rewrite IH; lia.
Qed.

Lemma iter_shr_1_exact (m d : positive) :
  SpecFloat.iter_pos shr_1 d {| shr_m := Z.pos (Pos.iter xO m d);
                      shr_r := false; shr_s := false |}
  = {| shr_m := Z.pos m; shr_r := false; shr_s := false |}.
Proof.
  rewrite iter_pos_iter.
  induction d as [|d IH] using Pos.peano_ind.
  - reflexivity.
  - rewrite Pos.iter_succ_r, Pos.iter_succ; cbn [shr_1 orb]; exact IH.
Qed.

(** A positive integer times a power of two, as a positive. *)
Lemma shifted_positive (N mx : positive) (k : Z) :
  0 <= k -> Z.pos mx = Z.pos N * 2 ^ k ->
  mx = match k with Z.pos d => Pos.iter xO N d | _ => N end.
Proof.
  intros Hk H; destruct k as [|d|d]; [| |lia].
  - rewrite Z.pow_0_r, Z.mul_1_r in H; congruence.
  - rewrite <- iter_xO_value in H; congruence.
Qed.

Lemma normal_mantissa_value (N : positive) :
  Z.pos (digits2_pos N) <= 53 ->
  Z.pos (normal_mantissa N) = Z.pos N * 2 ^ (53 - Z.pos (digits2_pos N)) /\
  Z.pos (digits2_pos (normal_mantissa N)) = 53.
Proof.
  intros H; unfold normal_mantissa.
  destruct (53 - Z.pos (digits2_pos N)) as [|d|d] eqn:E; [| |lia].
  - rewrite Z.pow_0_r; lia.
  - rewrite iter_xO_value, iter_xO_digits; lia.
Qed.

Lemma shr_fexp_canonical (m : positive) (c : Z) :
  Z.pos (digits2_pos m) = 53 -> -1074 <= c ->
  shr_fexp prec emax (Z.pos m) c loc_Exact
  = ({| shr_m := Z.pos m; shr_r := false; shr_s := false |}, c).
Proof.
  intros Hd Hc; unfold shr_fexp, Zdigits2, fexp, emin, prec, emax.
  rewrite Hd.
  replace (Z.max (53 + c - 53) (3 - 1024 - 53) - c) with 0 by lia.
  reflexivity.
Qed.

Lemma binary_round_aux_canonical (sx : bool) (m : positive) (c : Z) :
  Z.pos (digits2_pos m) = 53 -> -1074 <= c <= 971 ->
  binary_round_aux prec emax sx (Z.pos m) c loc_Exact = S754_finite sx m c.
Proof.
  intros Hd Hc; unfold binary_round_aux.
  rewrite (shr_fexp_canonical m c Hd) by lia.
  cbn [shr_m loc_of_shr_record round_nearest_even].
  rewrite (shr_fexp_canonical m c Hd) by lia.
  cbn [shr_m]; unfold emax, prec.
  destruct (Z.leb_spec c (1024 - 53)); [reflexivity | lia].
Qed.

Lemma binary_round_exact (sx : bool) (mx N : positive) (ex : Z) :
  ex <= 0 -> Z.pos mx = Z.pos N * 2 ^ (- ex) ->
  Z.pos (digits2_pos N) <= 53 ->
  binary_round prec emax sx mx ex
  = S754_finite sx (normal_mantissa N) (Z.pos (digits2_pos N) - 53).
Proof.
  intros Hex Hmx HN.
  destruct (normal_mantissa_value N HN) as [Hv Hd].
  set (c := Z.pos (digits2_pos N) - 53) in *.
  assert (Hdx : Z.pos (digits2_pos mx) + ex = Z.pos (digits2_pos N)).
  { rewrite (shifted_positive N mx (- ex) ltac:(lia) Hmx).
    destruct (- ex) as [|d|d] eqn:E; [lia| |lia].
    rewrite iter_xO_digits; lia. }
  unfold binary_round; rewrite Hdx.
  replace (fexp prec emax (Z.pos (digits2_pos N))) with c
    by (unfold fexp, emin, prec, emax; lia).
  unfold shl_align.
  destruct (c - ex) as [|p|p] eqn:E.
  - assert (mx = normal_mantissa N) as -> by
      (apply Pos2Z.inj; rewrite Hmx, Hv; f_equal; f_equal; lia).
    replace ex with c by lia.
    apply binary_round_aux_canonical; [exact Hd | lia].
  - unfold binary_round_aux at 1.
    unfold shr_fexp at 1, Zdigits2; rewrite Hdx.
    replace (fexp prec emax (Z.pos (digits2_pos N)) - ex) with (Z.pos p)
      by (unfold fexp, emin, prec, emax; lia).
    cbn [shr shr_record_of_loc].
    assert (mx = Pos.iter xO (normal_mantissa N) p) as ->.
    { apply Pos2Z.inj; rewrite iter_xO_value, Hmx, Hv.
      rewrite <- Z.mul_assoc, <- Z.pow_add_r by lia.
      f_equal; f_equal; lia. }
    rewrite iter_shr_1_exact.
    cbn [shr_m loc_of_shr_record round_nearest_even].
    replace (ex + Z.pos p) with c by lia.
    rewrite (shr_fexp_canonical _ c Hd) by lia.
    cbn [shr_m]; unfold emax, prec.
    destruct (Z.leb_spec c (1024 - 53)); [reflexivity | lia].
  - assert (Pos.iter xO mx p = normal_mantissa N) as ->.
    { apply Pos2Z.inj; rewrite iter_xO_value, Hmx, Hv.
      rewrite <- Z.mul_assoc, <- Z.pow_add_r by lia.
      f_equal; f_equal; lia. }
    apply binary_round_aux_canonical; [exact Hd | lia].
Qed.

Lemma digits2_bounds (p : positive) :
  2 ^ (Z.pos (digits2_pos p) - 1) <= Z.pos p < 2 ^ Z.pos (digits2_pos p).
Proof.
  induction p as [p IH|p IH|]; cbn [digits2_pos]; [| |simpl; lia].
  - rewrite Pos2Z.inj_succ, (Pos2Z.inj_xI p).
    replace (Z.succ (Z.pos (digits2_pos p)) - 1)
      with (Z.succ (Z.pos (digits2_pos p) - 1)) by lia.
    rewrite !Z.pow_succ_r by lia; lia.
  - rewrite Pos2Z.inj_succ, (Pos2Z.inj_xO p).
    replace (Z.succ (Z.pos (digits2_pos p)) - 1)
      with (Z.succ (Z.pos (digits2_pos p) - 1)) by lia.
    rewrite !Z.pow_succ_r by lia; lia.
Qed.

Lemma digits2_le (p : positive) (k : Z) :
  Z.pos p < 2 ^ k -> Z.pos (digits2_pos p) <= k.
Proof.
  intros H; pose proof (digits2_bounds p) as [Hlo _].
  destruct (Z.le_gt_cases (Z.pos (digits2_pos p)) k) as [|Hgt]; [assumption|].
  assert (0 <= k)
    by (destruct (Z.lt_ge_cases k 0);
        [rewrite Z.pow_neg_r in H by assumption; lia | assumption]).
  assert (2 ^ k <= 2 ^ (Z.pos (digits2_pos p) - 1))
    by (apply Z.pow_le_mono_r; lia).
  lia.
Qed.

Lemma digits2_gt (p : positive) (k : Z) :
  0 <= k -> 2 ^ k <= Z.pos p -> k < Z.pos (digits2_pos p).
Proof.
  intros Hk H; pose proof (digits2_bounds p) as [_ Hhi].
  destruct (Z.lt_ge_cases k (Z.pos (digits2_pos p))) as [|Hge]; [assumption|].
  assert (2 ^ Z.pos (digits2_pos p) <= 2 ^ k)
    by (apply Z.pow_le_mono_r; lia).
  lia.
Qed.

(** The nearest binary64 value of an integer below 2^53 is that integer. *)
Lemma integer_value_normal (sx : bool) (N : positive) :
  Z.pos (digits2_pos N) <= 53 ->
  integer_value
    (S754_finite sx (normal_mantissa N) (Z.pos (digits2_pos N) - 53))
  = Some (cond_Zopp sx (Z.pos N)).
Proof.
  intros H; destruct (normal_mantissa_value N H) as [Hv _].
  unfold integer_value; rewrite Hv.
  destruct (Z.leb_spec 0 (Z.pos (digits2_pos N) - 53)).
  - replace (Z.pos (digits2_pos N) - 53) with 0 by lia.
    replace (53 - Z.pos (digits2_pos N)) with 0 by lia.
    rewrite !Z.pow_0_r, !Z.mul_1_r; reflexivity.
  - replace (- (Z.pos (digits2_pos N) - 53))
      with (53 - Z.pos (digits2_pos N)) by lia.
    rewrite Z.mod_mul, Z.div_mul by (apply Z.pow_nonzero; lia).
    reflexivity.
Qed.

Lemma Number_of_Z_normal (N : positive) :
  Z.pos N < 2 ^ 53 ->
  Number_of_Z (Z.pos N)
  = S754_finite false (normal_mantissa N) (Z.pos (digits2_pos N) - 53).
Proof.
  intros H; unfold Number_of_Z, binary_normalize.
  apply binary_round_exact; [lia | simpl; lia | apply digits2_le, H].
Qed.

Lemma integer_value_of_Z (z : Z) :
  0 <= z < 2 ^ 53 -> integer_value (Number_of_Z z) = Some z.
Proof.
  intros Hz; destruct z as [|N|N]; [reflexivity| |lia].
  rewrite Number_of_Z_normal by lia.
  apply (integer_value_normal false), digits2_le; lia.
Qed.

Lemma Number_toString_of_Z (z : Z) :
  0 <= z < 2 ^ 53 -> Number_toString (Number_of_Z z) = decimal z.
Proof.
  intros Hz; destruct z as [|N|N]; [reflexivity| |lia].
  pose proof (integer_value_of_Z (Z.pos N) Hz) as E.
  rewrite Number_of_Z_normal in * by lia.
  unfold Number_toString; rewrite E.
  destruct (Z.ltb_spec (Z.abs (Z.pos N)) (2 ^ 53)); [reflexivity | lia].
Qed.

(** Adding one to a whole number is exact below 2^53. *)
Lemma Number_add_one (n : Z) :
  0 <= n -> n + 1 < 2 ^ 53 ->
  Number_add (Number_of_Z n) (Number_of_Z 1) = Number_of_Z (n + 1).
Proof.
  intros H0 Hn; destruct n as [|N|N]; [reflexivity| |lia].
  rewrite (Number_of_Z_normal N) by lia.
  destruct (normal_mantissa_value N ltac:(apply digits2_le; lia)) as [Hv Hd].
  pose proof (digits2_bounds N) as HbN.
  set (d := Z.pos (digits2_pos N)) in *.
  assert (Hd1 : 1 <= d <= 53) by (split; [subst d; lia | apply digits2_le; lia]).
  change (Number_of_Z 1) with (S754_finite false 4503599627370496 (-52)).
  unfold Number_add, SFadd.
  replace (Z.min (d - 53) (-52)) with (-52) by lia.
  assert (Hx : Z.pos (fst (shl_align (normal_mantissa N) (d - 53) (-52)))
               = Z.pos N * 2 ^ 52).
  { unfold shl_align.
    destruct (-52 - (d - 53)) as [|p|p] eqn:E; cbn [fst].
    - rewrite Hv; do 2 f_equal; lia.
    - lia.
    - rewrite iter_xO_value, Hv, <- Z.mul_assoc, <- Z.pow_add_r by lia.
      do 2 f_equal; lia. }
  change (shl_align 4503599627370496 (-52) (-52))
    with (4503599627370496%positive, -52).
  cbn [cond_Zopp fst]; rewrite Hx.
  replace (Z.pos N * 2 ^ 52 + 4503599627370496)
    with ((Z.pos N + 1) * 2 ^ 52) by (change 4503599627370496 with (2 ^ 52); ring).
  destruct ((Z.pos N + 1) * 2 ^ 52) as [|M|M] eqn:EM; [lia| |lia].
  unfold binary_normalize.
  replace (Z.pos N + 1) with (Z.pos (N + 1)) in * by lia.
  rewrite (binary_round_exact false M (N + 1) (-52));
    [|lia|symmetry; exact EM|apply digits2_le; lia].
  rewrite (Number_of_Z_normal (N + 1)) by lia; reflexivity.
Qed.

Lemma shr_1_m (mrs : shr_record) :
  0 <= shr_m mrs -> shr_m (shr_1 mrs) = shr_m mrs / 2.
Proof.
  destruct mrs as [[|[p|p|]|p] r s]; cbn [shr_1 shr_m]; intros H;
    try reflexivity; try lia.
  - rewrite Pos2Z.inj_xI, Z.mul_comm, Z.div_add_l by lia.
    reflexivity.
  - rewrite Pos2Z.inj_xO, Z.mul_comm, Z.div_mul by lia; reflexivity.
Qed.

Lemma iter_shr_1_m (p : positive) (mrs : shr_record) :
  0 <= shr_m mrs ->
  shr_m (SpecFloat.iter_pos shr_1 p mrs) = shr_m mrs / 2 ^ Z.pos p.
Proof.
  intros H; rewrite iter_pos_iter.
  induction p as [|p IH] using Pos.peano_ind.
  - cbn [Pos.iter]; rewrite shr_1_m by assumption; reflexivity.
  - rewrite Pos.iter_succ, shr_1_m, IH.
    + rewrite Pos2Z.inj_succ, Z.pow_succ_r, Z.div_div by lia.
      f_equal; lia.
    + rewrite IH; apply Z.div_pos; lia.
Qed.

Lemma shr_fexp_large (Q : positive) (c : Z) :
  2 ^ 52 <= Z.pos Q -> 1 <= c ->
  1 <= snd (shr_fexp prec emax (Z.pos Q) c loc_Exact) /\
  2 ^ 52 <= shr_m (fst (shr_fexp prec emax (Z.pos Q) c loc_Exact)).
Proof.
  intros HQ Hc; unfold shr_fexp, Zdigits2.
  pose proof (digits2_gt Q 52 ltac:(lia) HQ) as Hd.
  pose proof (digits2_bounds Q) as [Hlo _].
  set (d := Z.pos (digits2_pos Q)) in *.
  replace (fexp prec emax (d + c) - c) with (d - 53)
    by (unfold fexp, emin, prec, emax; lia).
  destruct (d - 53) as [|t|t] eqn:E; [| |lia]; cbn [shr fst snd].
  - cbn [shr_record_of_loc shr_m]; lia.
  - rewrite iter_shr_1_m by (cbn; lia).
    cbn [shr_record_of_loc shr_m]; split; [lia|].
    apply Z.div_le_lower_bound; [lia|].
    rewrite <- Z.pow_add_r by lia.
    replace (Z.pos t + 52) with (d - 1) by lia; exact Hlo.
Qed.

Lemma round_nearest_even_ge (m : Z) (l : location) :
  m <= round_nearest_even m l.
Proof.
  destruct l as [|[| |]]; cbn [round_nearest_even]; try lia.
  destruct (Z.even m); lia.
Qed.

(** From 2^53 on, the nearest binary64 value is infinite or a whole number
    that is at least 2^53. *)
Lemma Number_of_Z_large (N : positive) :
  2 ^ 53 <= Z.pos N ->
  match Number_of_Z (Z.pos N) with
  | S754_infinity false => True
  | S754_finite false m e => 1 <= e /\ 2 ^ 52 <= Z.pos m
  | _ => False
  end.
Proof.
  intros HN; unfold Number_of_Z, binary_normalize, binary_round.
  pose proof (digits2_gt N 53 ltac:(lia) HN) as Hd.
  pose proof (digits2_bounds N) as [Hlo _].
  set (d := Z.pos (digits2_pos N)) in *.
  replace (fexp prec emax (d + 0)) with (d - 53)
    by (unfold fexp, emin, prec, emax; lia).
  unfold shl_align.
  destruct (d - 53 - 0) as [|p|p] eqn:E; [lia| |lia].
  unfold binary_round_aux.
  unfold shr_fexp at 1, Zdigits2 at 1; fold d.
  replace (fexp prec emax (d + 0) - 0) with (Z.pos p)
    by (unfold fexp, emin, prec, emax; lia).
  cbn [shr shr_record_of_loc].
  set (mrs := SpecFloat.iter_pos shr_1 p _).
  assert (Hq : 2 ^ 52 <= shr_m mrs).
  { subst mrs; rewrite iter_shr_1_m by (cbn; lia); cbn [shr_m].
    apply Z.div_le_lower_bound; [lia|].
    rewrite <- Z.pow_add_r by lia.
    replace (Z.pos p + 52) with (d - 1) by lia; exact Hlo. }
  pose proof (round_nearest_even_ge (shr_m mrs) (loc_of_shr_record mrs)) as Hr.
  destruct (round_nearest_even (shr_m mrs) (loc_of_shr_record mrs))
    as [|Q|Q]; [lia| |lia].
  pose proof (shr_fexp_large Q (0 + Z.pos p) ltac:(lia) ltac:(lia)) as [He Hm].
  destruct (shr_fexp prec emax (Z.pos Q) (0 + Z.pos p) loc_Exact)
    as [mrs'' e'']; cbn [fst snd] in *.
  destruct (shr_m mrs'') as [|m|m]; [lia| |lia].
  destruct (e'' <=? emax - prec); [split; assumption | exact I].
Qed.

Lemma integer_value_of_Z_large (N : positive) (z : Z) :
  2 ^ 53 <= Z.pos N ->
  integer_value (Number_of_Z (Z.pos N)) = Some z -> 2 ^ 53 <= z.
Proof.
  intros HN; pose proof (Number_of_Z_large N HN) as H.
  destruct (Number_of_Z (Z.pos N)) as [s|s| |s m e]; try discriminate;
    [contradiction|].
  destruct s; [contradiction|]; destruct H as [He Hm].
  unfold integer_value; destruct (Z.leb_spec 0 e); [|lia].
  intros [= <-]; cbn [cond_Zopp].
  assert (2 ^ 1 <= 2 ^ e) by (apply Z.pow_le_mono_r; lia).
  change (2 ^ 53) with (2 ^ 52 * 2 ^ 1); nia.
Qed.

End WholeNumbers.

(** ** Printing numbers

    The printer on values whose JavaScript spelling is well known; the
    last line runs the digit search on integers that [Number_toString]
    prints directly. *)

Lemma Number_toString_examples :
  Number_toString (Number_div (Number_of_Z 1) (Number_of_Z 10)) = "0.1" /\
  Number_toString (Number_div (Number_of_Z 25) (Number_of_Z 2)) = "12.5" /\
  Number_toString (Number_add (Number_div (Number_of_Z 1) (Number_of_Z 10))
                              (Number_div (Number_of_Z 2) (Number_of_Z 10)))
    = "0.30000000000000004" /\
  Number_toString (Number_of_Z (10 ^ 21)) = "1e+21" /\
  Number_toString (Number_of_Z (2 ^ 70)) = "1.1805916207174113e+21" /\
  Number_toString (Number_of_Z 123456789012345678901)
    = "123456789012345680000" /\
  Number_toString (S754_finite false 1 (-1074)) = "5e-324" /\
  Number_toString (Number_div (Number_of_Z 1) (Number_of_Z 10000000))
    = "1e-7" /\
  Number_toString (S754_infinity true) = "-Infinity" /\
  (shortest_decimal false 90 0, shortest_decimal false 9007199254740991 0,
   shortest_decimal true 5 0)
    = ("90", "9007199254740991", "-5").
Proof. repeat split; vm_compute; reflexivity. Qed.

(** ** ChatInput *)

Import ChatInput.

Lemma handleModeCycle_steps :
  handleModeCycle "qa" = Some "video_summary" /\
  handleModeCycle "video_summary" = Some "quiz" /\
  handleModeCycle "quiz" = Some "qa".
Proof. repeat split; reflexivity. Qed.

Lemma indexOf_absent (l : list string) (x : string) (from : Z) :
  ~ In x l -> indexOf l x from = -1.
Proof.
  revert from; induction l as [|y l IH]; intros from Hx; simpl; [reflexivity|].
  destruct (String.eqb_spec y x) as [->|_].
  - exfalso; apply Hx; left; reflexivity.
  - apply IH; intros H; apply Hx; right; exact H.
Qed.

(** C8. [handleModeCycle] steps through qa, video_summary, quiz in this
    order and wraps around: from a mode of the list three steps lead back to
    it, and from any other value the next mode is qa. *)
Theorem handleModeCycle_cyclic (m : string) :
  (In m modes ->
     (handleModeCycle m ≫= handleModeCycle) ≫= handleModeCycle = Some m) /\
  (~ In m modes -> handleModeCycle m = Some "qa") /\
  handleModeCycle "qa" = Some "video_summary" /\
  handleModeCycle "video_summary" = Some "quiz" /\
  handleModeCycle "quiz" = Some "qa".
Proof.
  split; [|split; [|exact handleModeCycle_steps]].
  - intros [<-|[<-|[<-|[]]]]; reflexivity.
  - intros Hm; unfold handleModeCycle.
    rewrite (indexOf_absent _ _ _ Hm); reflexivity.
Qed.

Lemma handleModeCycle_cyclic_witness :
  In "quiz" modes /\
  (handleModeCycle "quiz" ≫= handleModeCycle) ≫= handleModeCycle
    = Some "quiz" /\
  handleModeCycle "settings" = Some "qa".
Proof.
  split; [simpl; tauto|]. split.
  - apply (proj1 (handleModeCycle_cyclic "quiz")); simpl; tauto.
  - apply (proj1 (proj2 (handleModeCycle_cyclic "settings"))).
    simpl; intros [H|[H|[H|[]]]]; discriminate H.
Defined.

Lemma includes_In (l : list string) (x : string) :
  existsb (String.eqb x) l = true <-> In x l.
Proof.
  rewrite existsb_exists; split.
  - intros (y & Hy & E); apply String.eqb_eq in E; subst; exact Hy.
  - intros H; exists x; split; [exact H | apply String.eqb_refl].
Qed.

Lemma In_other_than (l : list string) (chapter x : string) :
  In x (List.filter (other_than chapter) l) <-> In x l /\ x <> chapter.
Proof.
  rewrite filter_In; unfold other_than.
  destruct (String.eqb_spec x chapter); simpl; intuition congruence.
Qed.

Lemma filter_other_than_absent (l : list string) (chapter : string) :
  ~ In chapter l -> List.filter (other_than chapter) l = l.
Proof.
  induction l as [|y l IH]; intros H; simpl; [reflexivity|].
  unfold other_than at 1.
  destruct (String.eqb_spec y chapter) as [->|_]; simpl.
  - exfalso; apply H; left; reflexivity.
  - f_equal; apply IH; intros H'; apply H; right; exact H'.
Qed.

Lemma filter_other_than_idem (l : list string) (chapter : string) :
  List.filter (other_than chapter) (List.filter (other_than chapter) l)
  = List.filter (other_than chapter) l.
Proof.
  apply filter_other_than_absent.
  rewrite In_other_than; tauto.
Qed.

Lemma toggle_present (l : list string) (chapter : string) :
  In chapter l ->
  handleChapterToggle l chapter = List.filter (other_than chapter) l.
Proof.
  intros H; unfold handleChapterToggle.
  apply includes_In in H; rewrite H; reflexivity.
Qed.

Lemma toggle_absent (l : list string) (chapter : string) :
  ~ In chapter l -> handleChapterToggle l chapter = (l ++ [chapter])%list.
Proof.
  intros H; unfold handleChapterToggle.
  destruct (existsb (String.eqb chapter) l) eqn:E; [|reflexivity].
  apply includes_In in E; contradiction.
Qed.

Lemma filter_other_than_snoc (l : list string) (chapter : string) :
  List.filter (other_than chapter) (l ++ [chapter])%list
  = List.filter (other_than chapter) l.
Proof.
  rewrite List.filter_app; simpl; unfold other_than at 2.
  rewrite String.eqb_refl; simpl; apply app_nil_r.
Qed.

Lemma NoDup_remove_snoc (l : list string) (chapter : string) :
  List.NoDup l -> In chapter l ->
  Permutation (List.filter (other_than chapter) l ++ [chapter])%list l.
Proof.
  induction 1 as [|y l Hy Hl IH]; intros Hin; [destruct Hin|].
  simpl; unfold other_than at 1.
  destruct (String.eqb_spec y chapter) as [->|Hne]; simpl.
  - rewrite filter_other_than_absent by exact Hy.
    symmetry; apply Permutation_cons_append.
  - destruct Hin as [->|Hin]; [congruence|].
    apply Permutation_cons; [reflexivity | apply IH, Hin].
Qed.

Lemma toggle_twice_eq (l : list string) (chapter : string) :
  handleChapterToggle (handleChapterToggle l chapter) chapter
  = if existsb (String.eqb chapter) l
    then (List.filter (other_than chapter) l ++ [chapter])%list
    else l.
Proof.
  destruct (existsb (String.eqb chapter) l) eqn:E.
  - apply includes_In in E.
    rewrite (toggle_present _ _ E), toggle_absent; [reflexivity|].
    rewrite In_other_than; tauto.
  - assert (H : ~ In chapter l)
      by (intros H; apply includes_In in H; congruence).
    rewrite (toggle_absent _ _ H), toggle_present
      by (apply in_or_app; right; left; reflexivity).
    rewrite filter_other_than_snoc; apply filter_other_than_absent, H.
Qed.

(** C9. [handleChapterToggle] removes the chapter, every occurrence of it,
    when it is selected and appends it otherwise.  After two toggles of the
    same chapter the list holds the same set of chapters as before and the
    other chapters are in their original relative order; a selected chapter
    comes back once, at the end.  A list without repetitions is restored up
    to the position of the toggled chapter (exactly, when the chapter was
    not selected). *)
Theorem handleChapterToggle_twice (selected : list string) (chapter : string) :
  let once := handleChapterToggle selected chapter in
  let twice := handleChapterToggle once chapter in
  (In chapter selected ->
     once = List.filter (other_than chapter) selected) /\
  (~ In chapter selected -> once = (selected ++ [chapter])%list) /\
  (forall c, In c twice <-> In c selected) /\
  List.filter (other_than chapter) twice
    = List.filter (other_than chapter) selected /\
  (~ In chapter selected -> twice = selected) /\
  (List.NoDup selected -> Permutation twice selected) /\
  (In chapter selected ->
     twice = (List.filter (other_than chapter) selected ++ [chapter])%list).
Proof.
  cbv zeta.
  split; [apply toggle_present|]. split; [apply toggle_absent|].
  rewrite toggle_twice_eq.
  destruct (existsb (String.eqb chapter) selected) eqn:E.
  - apply includes_In in E. repeat split.
    + intros H; apply in_app_or in H as [H|[<-|[]]]; [|exact E].
      apply In_other_than in H; tauto.
    + intros H; apply in_or_app.
      destruct (String.eqb_spec c chapter) as [->|Hne];
        [right; left; reflexivity | left; apply In_other_than; tauto].
    + rewrite filter_other_than_snoc; apply filter_other_than_idem.
    + intros H; contradiction.
    + intros H; apply NoDup_remove_snoc; assumption.
  - assert (H : ~ In chapter selected)
      by (intros H; apply includes_In in H; congruence).
    repeat split; auto; contradiction.
Qed.

Lemma handleChapterToggle_twice_witness :
  handleChapterToggle ["Chapter 1"; "Chapter 2"] "Chapter 1"
    = ["Chapter 2"] /\
  Permutation
    (handleChapterToggle
       (handleChapterToggle ["Chapter 1"; "Chapter 2"] "Chapter 1")
       "Chapter 1")
    ["Chapter 1"; "Chapter 2"] /\
  handleChapterToggle (handleChapterToggle ["Chapter 2"] "Chapter 1")
    "Chapter 1" = ["Chapter 2"].
Proof.
  split; [|split].
  - apply (proj1 (handleChapterToggle_twice
                    ["Chapter 1"; "Chapter 2"] "Chapter 1")).
    left; reflexivity.
  - apply (handleChapterToggle_twice ["Chapter 1"; "Chapter 2"] "Chapter 1").
    repeat constructor; simpl; intuition discriminate.
  - apply (handleChapterToggle_twice ["Chapter 2"] "Chapter 1").
    simpl; intuition discriminate.
Defined.

(** A chapter selected twice comes back once: after two toggles the list
    is shorter, not a rearrangement of the original. *)
Lemma handleChapterToggle_twice_duplicate :
  handleChapterToggle (handleChapterToggle ["A"; "A"] "A") "A" = ["A"] /\
  ~ Permutation
      (handleChapterToggle (handleChapterToggle ["A"; "A"] "A") "A")
      ["A"; "A"].
Proof.
  split; [reflexivity|].
  intros H; apply Permutation_length in H; discriminate H.
Qed.

(** ** The stream state of the API hooks *)

Section HandleSSEEvent.

Context {Src Any : Type}.
Implicit Types (event : Api.SSEEvent Src Any) (prev : UseApi.StreamState Src).

(** C5. A [cached] event ends streaming, replaces the content by the
    content of the event (the empty string when it has none) and the video
    information by that of the event, whatever the state held before; the
    other fields are kept. *)
Theorem handleSSEEvent_cached event prev :
  Api.type event = Some "cached" ->
  UseApi.handleSSEEvent event prev =
    {| UseApi.isStreaming := false;
       UseApi.content := match Api.content event with
                         | Some c => c
                         | None => ""
                         end;
       UseApi.sources := UseApi.sources prev;
       UseApi.videoInfo := Api.video_info event;
       UseApi.sessionId := UseApi.sessionId prev;
       UseApi.error := UseApi.error prev |}.
Proof.
  intros H; unfold UseApi.handleSSEEvent; rewrite H; simpl.
  destruct (Api.content event) as [[|c s]|]; reflexivity.
Qed.

(** C6. An [error] event ends streaming and sets the error to the content
    of the event when that is a non-empty string, and to ['Unknown error']
    when the content is missing or empty; content, sources, video
    information and session id are kept. *)
Theorem handleSSEEvent_error event prev :
  Api.type event = Some "error" ->
  UseApi.handleSSEEvent event prev =
    {| UseApi.isStreaming := false;
       UseApi.content := UseApi.content prev;
       UseApi.sources := UseApi.sources prev;
       UseApi.videoInfo := UseApi.videoInfo prev;
       UseApi.sessionId := UseApi.sessionId prev;
       UseApi.error :=
         Some match Api.content event with
              | Some (String c s) => String c s
              | Some EmptyString | None => "Unknown error"
              end |}.
Proof.
  intros H; unfold UseApi.handleSSEEvent; rewrite H; simpl.
  destruct (Api.content event) as [[|c s]|]; reflexivity.
Qed.

End HandleSSEEvent.

Lemma handleSSEEvent_cached_witness :
  UseApi.handleSSEEvent
    (Examples.typed_event "cached" (Some "Full summary")) Examples.idle =
    {| UseApi.isStreaming := false;
       UseApi.content := "Full summary";
       UseApi.sources := [tt];
       UseApi.videoInfo := None;
       UseApi.sessionId := Some "s1";
       UseApi.error := None |}.
Proof.
  apply (handleSSEEvent_cached
           (Examples.typed_event "cached" (Some "Full summary"))
           Examples.idle).
  reflexivity.
Defined.

Lemma handleSSEEvent_error_witness :
  UseApi.handleSSEEvent
    (Examples.typed_event "error" (Some "Video not found")) Examples.idle =
    {| UseApi.isStreaming := false;
       UseApi.content := "partial";
       UseApi.sources := [tt];
       UseApi.videoInfo := None;
       UseApi.sessionId := Some "s1";
       UseApi.error := Some "Video not found" |}.
Proof.
  apply (handleSSEEvent_error
           (Examples.typed_event "error" (Some "Video not found"))
           Examples.idle).
  reflexivity.
Defined.

(** An [error] event whose content is the empty string: the error shown is
    ['Unknown error'], not the (empty) content of the event. *)
Lemma handleSSEEvent_error_empty_content :
  Api.content (Examples.typed_event "error" (Some "")) = Some "" /\
  UseApi.error
    (UseApi.handleSSEEvent (Examples.typed_event "error" (Some ""))
                           Examples.idle)
    = Some "Unknown error" /\
  UseApi.error
    (UseApi.handleSSEEvent (Examples.typed_event "error" (Some ""))
                           Examples.idle)
    <> Api.content (Examples.typed_event "error" (Some "")).
Proof. repeat split; discriminate. Qed.

(** ** Quiz score *)

Import QuizDisplay.

Section CalculateScore.

Implicit Types (results : ValidationResults) (qs : list QuizQuestion).

(** The [forEach] loop adds up, from left to right, the scores of the
    questions that have a result. *)
Lemma fold_add_score results qs (acc : Number) :
  fold_left (add_score results) qs acc
  = fold_left Number_add (omap (questionScore results) qs) acc.
Proof.
  revert acc; induction qs as [|q qs IH]; intros acc; [reflexivity|].
  simpl; rewrite IH; unfold add_score, questionScore.
  destruct (results !! question_index q) as [r|]; [|reflexivity].
  destruct (String.eqb (question_type q) "mcq"); reflexivity.
Qed.

Lemma omap_questionScore_length results qs :
  (forall q, In q qs -> is_Some (results !! question_index q)) ->
  length (omap (questionScore results) qs) = length qs.
Proof.
  induction qs as [|q qs IH]; intros H; [reflexivity|].
  simpl; unfold questionScore at 1.
  destruct (H q (or_introl eq_refl)) as [r ->]; simpl.
  f_equal; apply IH; intros q' Hq'; apply H; right; exact Hq'.
Qed.

Lemma size_lookup_nonzero results (k : Z) :
  is_Some (results !! k) -> (size results =? 0)%nat = false.
Proof.
  intros [r Hr]; apply Nat.eqb_neq; intros Hs.
  apply map_size_empty_inv in Hs; subst.
  rewrite lookup_empty in Hr; discriminate.
Qed.

(** C1. When every question of a non-empty quiz has a stored result, the
    overall score is [Math.round((totalScore / (100 * n)) * 100)] in
    binary64 arithmetic, where [totalScore] adds up in order, for each of
    the [n] questions, 100 or 0 for a multiple-choice question according to
    [is_correct], and [llm_score || 0] otherwise.  It is a function of the
    stored results alone.  Four multiple-choice questions with three correct
    and one open-ended question scored 80 give 380 out of 500, that is 76. *)
Theorem calculateScore_spec (quiz : Quiz) qs results :
  questions quiz = Some qs ->
  qs <> [] ->
  (forall q, In q qs -> is_Some (results !! question_index q)) ->
  calculateScore (Some quiz) results =
    Some (Math_round
            (Number_mul
               (Number_div
                  (fold_left Number_add (omap (questionScore results) qs)
                             (Number_of_Z 0))
                  (Number_mul (Number_of_Z (Z.of_nat (length qs)))
                              (Number_of_Z 100)))
               (Number_of_Z 100))) /\
  length (omap (questionScore results) qs) = length qs /\
  (forall q r, In q qs -> results !! question_index q = Some r ->
     questionScore results q =
       Some (if String.eqb (question_type q) "mcq"
             then if is_correct r then Number_of_Z 100 else Number_of_Z 0
             else match llm_score r with
                  | Some x => if Number_truthy x then x else Number_of_Z 0
                  | None => Number_of_Z 0
                  end)) /\
  (calculateScore (Some Examples.quiz_4_1) Examples.results_4_1
     ≫= integer_value) = Some 76.
Proof.
  intros Hqs Hne Hall; split; [|split; [|split]].
  - unfold calculateScore; rewrite Hqs.
    destruct qs as [|q0 qs']; [congruence|].
    rewrite (size_lookup_nonzero results (question_index q0))
      by (apply Hall; left; reflexivity).
    rewrite fold_add_score; reflexivity.
  - apply omap_questionScore_length, Hall.
  - intros q r _ Hr; unfold questionScore; rewrite Hr; reflexivity.
  - vm_compute; reflexivity.
Qed.

End CalculateScore.

Lemma calculateScore_spec_witness :
  calculateScore (Some Examples.quiz_2) Examples.results_2 =
    Some (Math_round
            (Number_mul
               (Number_div
                  (Number_add (Number_add (Number_of_Z 0) (Number_of_Z 14))
                              (Number_of_Z 15))
                  (Number_mul (Number_of_Z 2) (Number_of_Z 100)))
               (Number_of_Z 100))).
Proof.
  refine (proj1 (calculateScore_spec Examples.quiz_2
            [Examples.open_question 0; Examples.open_question 1]
            Examples.results_2 eq_refl _ _)).
  - discriminate.
  - intros q [<-|[<-|[]]]; vm_compute; eauto.
Defined.

(** The quiz of the example scores 76, not 95: the maximum is 100 for each
    of its five questions. *)
Lemma calculateScore_4_1_is_76 :
  (calculateScore (Some Examples.quiz_4_1) Examples.results_4_1
     ≫= integer_value) = Some 76 /\
  (calculateScore (Some Examples.quiz_4_1) Examples.results_4_1
     ≫= integer_value) <> Some 95.
Proof. split; [vm_compute; reflexivity | vm_compute; discriminate]. Qed.

(** Scores 14 and 15 average to 14.5, yet the score shown is 14: the
    quotient 29/200 is rounded to binary64 before it is multiplied by 100. *)
Lemma calculateScore_binary64_rounding :
  (calculateScore (Some Examples.quiz_2) Examples.results_2
     ≫= integer_value) = Some 14.
Proof. vm_compute; reflexivity. Qed.

(** ** Citation markers *)

Section Citations.

Implicit Types (srcs : list SourceReference) (s ds pre post : string).

Lemma span_digits_run ds post :
  all_chars is_digit ds = true ->
  span_digits (ds ++ String "]" post) = (ds, String "]" post).
Proof.
  induction ds as [|c ds IH]; intros H; [reflexivity|].
  simpl in H; apply andb_prop in H as [Hc Hds].
  simpl; rewrite Hc, (IH Hds); reflexivity.
Qed.

Lemma match_here_marker ds post :
  ds <> EmptyString -> all_chars is_digit ds = true ->
  match_here (String "[" (ds ++ String "]" post))
  = Some (ds, (String.length ds + 2)%nat).
Proof.
  intros Hne Hds; unfold match_here.
  rewrite (span_digits_run _ _ Hds).
  destruct ds; [congruence | reflexivity].
Qed.

Lemma match_here_other (c : ascii) s :
  not_bracket c = true -> match_here (String c s) = None.
Proof.
  destruct c as [[] [] [] [] [] [] [] []]; try reflexivity; discriminate.
Qed.

Lemma scan_skip srcs s post pending :
  scan srcs (String.length s) pending (s ++ post) = scan srcs 0 pending post.
Proof.
  induction s as [|c s IH]; simpl; [reflexivity | exact IH].
Qed.

Lemma append_assoc_char pending (c : ascii) s :
  ((pending ++ String c EmptyString) ++ s = pending ++ String c s)%string.
Proof. induction pending as [|d p IH]; simpl; [|rewrite IH]; reflexivity. Qed.

Lemma scan_plain_prefix srcs pre pending rest :
  all_chars not_bracket pre = true ->
  scan srcs 0 pending (pre ++ rest) = scan srcs 0 (pending ++ pre) rest.
Proof.
  revert pending; induction pre as [|c pre IH]; intros pending H.
  - replace (pending ++ "")%string with pending; [reflexivity|].
    induction pending as [|d p IHp]; simpl; [|rewrite <- IHp]; reflexivity.
  - simpl in H; apply andb_prop in H as [Hc Hpre].
    cbn [String.append scan].
    rewrite (match_here_other _ _ Hc), (IH _ Hpre), append_assoc_char.
    reflexivity.
Qed.

Lemma length_append_one ds :
  String.length (ds ++ "]") = (String.length ds + 2 - 1)%nat.
Proof. induction ds as [|c ds IH]; simpl; [reflexivity | rewrite IH; lia]. Qed.

(** A marker that follows bracket-free text becomes a button, whatever its
    number; the scan goes on after the closing bracket. *)
Lemma scan_marker srcs pre ds post :
  all_chars not_bracket pre = true ->
  ds <> EmptyString -> all_chars is_digit ds = true ->
  scan srcs 0 EmptyString (pre ++ String "[" (ds ++ String "]" post))
  = (push_text pre ++
     citation_button (parseInt ds) srcs :: scan srcs 0 EmptyString post)%list.
Proof.
  intros Hpre Hne Hds.
  rewrite (scan_plain_prefix _ _ _ _ Hpre); simpl append.
  cbn [scan]; rewrite (match_here_marker _ _ Hne Hds).
  do 2 f_equal.
  replace (ds ++ String "]" post)%string
    with ((ds ++ "]") ++ post)%string
    by (rewrite append_assoc_char; reflexivity).
  rewrite <- length_append_one; apply scan_skip.
Qed.

Lemma handleCitationClick_same :
  VideoSummaryDisplay.handleCitationClick = Message.handleCitationClick.
Proof. reflexivity. Qed.

Lemma processTextWithCitations_same :
  VideoSummaryDisplay.processTextWithCitations
  = Message.processTextWithCitations.
Proof. reflexivity. Qed.

(** C2. A click on a marker [[n]] with [1 <= n <= L] resolves to the source
    at position [n - 1] and either seeks the player to its [start_time],
    when the seek callback is provided, or opens the address made of its
    [video_url] followed by [&t=], the start time and [s].  Both components
    behave alike. *)
Theorem handleCitationClick_in_range (onSeekVideo : bool) (n : Z) srcs :
  1 <= n <= Z.of_nat (length srcs) ->
  exists source,
    srcs !! Z.to_nat (n - 1) = Some source /\
    Message.handleCitationClick onSeekVideo n (Some srcs) =
      (if onSeekVideo then [seek_video (start_time source)]
       else [window_open
               (video_url source ++ "&t=" ++
                Number_toString (start_time source) ++ "s")%string
               "_blank" "noopener,noreferrer"]) /\
    VideoSummaryDisplay.handleCitationClick onSeekVideo n (Some srcs) =
      Message.handleCitationClick onSeekVideo n (Some srcs).
Proof.
  intros [Hlo Hhi].
  destruct (lookup_lt_is_Some_2 srcs (Z.to_nat (n - 1))) as [source Hs];
    [lia|].
  exists source; split; [exact Hs|]; split; [|reflexivity].
  unfold Message.handleCitationClick.
  destruct (Z.ltb_spec (Z.of_nat (length srcs)) n); [lia|].
  destruct (Z.ltb_spec (n - 1) 0); [lia|].
  rewrite Hs; reflexivity.
Qed.

Lemma handleCitationClick_in_range_witness :
  exists source,
    [Examples.lecture; Examples.source_at "https://youtu.be/xyz" 12]
      !! Z.to_nat (2 - 1) = Some source /\
    Message.handleCitationClick true 2
      (Some [Examples.lecture; Examples.source_at "https://youtu.be/xyz" 12])
    = (if true then [seek_video (start_time source)]
       else [window_open
               (video_url source ++ "&t=" ++
                Number_toString (start_time source) ++ "s")%string
               "_blank" "noopener,noreferrer"]) /\
    VideoSummaryDisplay.handleCitationClick true 2
      (Some [Examples.lecture; Examples.source_at "https://youtu.be/xyz" 12])
    = Message.handleCitationClick true 2
      (Some [Examples.lecture; Examples.source_at "https://youtu.be/xyz" 12]).
Proof.
  apply (handleCitationClick_in_range true 2
           [Examples.lecture; Examples.source_at "https://youtu.be/xyz" 12]).
  simpl; lia.
Defined.

(** Without a seek callback the address opened for the sample source ends
    in [&t=90s]; it is not the video address followed by [?t=90]. *)
Lemma handleCitationClick_opens_amp_t :
  Message.handleCitationClick false 1 (Some [Examples.lecture]) =
    [window_open "https://www.youtube.com/watch?v=abc&t=90s"
                 "_blank" "noopener,noreferrer"] /\
  Message.handleCitationClick false 1 (Some [Examples.lecture]) <>
    [window_open
       (video_url Examples.lecture ++ "?t=" ++
        Number_toString (start_time Examples.lecture))%string
       "_blank" "noopener,noreferrer"].
Proof. split; [vm_compute; reflexivity | vm_compute; discriminate]. Qed.

End Citations.

Section OutOfRange.

Implicit Types (srcs : list SourceReference) (ds pre post : string).

Lemma handleCitationClick_no_source (onSeekVideo : bool) (n : Z) srcs :
  Z.of_nat (length srcs) < n \/ n < 1 ->
  Message.handleCitationClick onSeekVideo n (Some srcs) = [].
Proof.
  intros H; unfold Message.handleCitationClick.
  destruct (Z.ltb_spec (Z.of_nat (length srcs)) n); [reflexivity|].
  destruct (Z.ltb_spec (n - 1) 0); [reflexivity | lia].
Qed.

Lemma digits_value_nonneg ds :
  all_chars is_digit ds = true -> 0 <= digits_value ds.
Proof.
  intros H; unfold digits_value.
  assert (G : forall acc, 0 <= acc ->
            0 <= (fix go (acc : Z) (s : string) {struct s} : Z :=
                    match s with
                    | String c s' =>
                        go (10 * acc + (Z.of_N (N_of_ascii c) - 48)) s'
                    | EmptyString => acc
                    end) acc ds); [|apply G; lia].
  induction ds as [|c ds IH]; intros acc Ha; [exact Ha|].
  cbn [all_chars] in H; apply andb_prop in H as [Hc Hds].
  apply (IH Hds).
  unfold is_digit in Hc; apply andb_prop in Hc as [Hc _].
  apply N.leb_le in Hc; lia.
Qed.

(** What [parseInt] gives for a run of digits: the integer itself below
    2^53; otherwise [Infinity] or a whole number that is at least 2^53. *)
Lemma parseInt_value ds :
  all_chars is_digit ds = true ->
  (digits_value ds < 2 ^ 53 ->
   integer_value (parseInt ds) = Some (digits_value ds)) /\
  (2 ^ 53 <= digits_value ds ->
   forall z, integer_value (parseInt ds) = Some z -> 2 ^ 53 <= z).
Proof.
  intros H; pose proof (digits_value_nonneg ds H) as H0.
  unfold parseInt; split.
  - intros Hlt; apply integer_value_of_Z; lia.
  - intros Hge z; destruct (digits_value ds) as [|N|N]; [lia| |lia].
    apply integer_value_of_Z_large, Hge.
Qed.

Lemma click_out_of_range (onSeekVideo : bool) srcs ds :
  all_chars is_digit ds = true ->
  Z.of_nat (length srcs) < digits_value ds \/ digits_value ds < 1 ->
  Z.of_nat (length srcs) < 2 ^ 53 ->
  Message.click onSeekVideo (citation_button (parseInt ds) srcs) = [].
Proof.
  intros Hds Hout Hlen; cbn [Message.click].
  destruct (parseInt_value ds Hds) as [Hsmall Hlarge].
  destruct (Z.lt_ge_cases (digits_value ds) (2 ^ 53)) as [Hlt|Hge].
  - rewrite (Hsmall Hlt); apply handleCitationClick_no_source, Hout.
  - destruct (integer_value (parseInt ds)) as [z|] eqn:E; [|reflexivity].
    apply handleCitationClick_no_source; left.
    specialize (Hlarge Hge z eq_refl); lia.
Qed.

(** A match that starts before a marker ends before it. *)
Lemma span_digits_bracket p tail ds r :
  span_digits (p ++ String "[" tail) = (ds, String "]" r) ->
  (String.length ds + 1 <= String.length p)%nat.
Proof.
  revert ds; induction p as [|a p IH]; intros ds H.
  - cbn in H; injection H as _ H; discriminate H.
  - cbn [String.append span_digits] in H.
    destruct (is_digit a).
    + destruct (span_digits (p ++ String "[" tail)) as [ds' rest] eqn:E.
      injection H as <- ->.
      specialize (IH ds' eq_refl); cbn [String.length]; lia.
    + injection H as <- _; cbn [String.length]; lia.
Qed.

Lemma match_here_within (c : ascii) pre tail ds (len : nat) :
  match_here (String c (pre ++ String "[" tail)) = Some (ds, len) ->
  (len - 1 <= String.length pre)%nat.
Proof.
  unfold match_here.
  destruct (Ascii.eqb_spec c "[") as [->|N].
  - destruct (span_digits (pre ++ String "[" tail)) as [ds' rest] eqn:E.
    destruct ds' as [|d ds']; [discriminate|].
    destruct rest as [|c' rest]; [discriminate|].
    destruct (Ascii.eqb_spec c' "]") as [->|N'].
    + intros [= <- <-].
      pose proof (span_digits_bracket _ _ _ _ E) as L.
      cbn [String.length] in *; lia.
    + destruct c' as [[] [] [] [] [] [] [] []]; try discriminate;
        contradiction N'; reflexivity.
  - destruct c as [[] [] [] [] [] [] [] []]; try discriminate;
      contradiction N; reflexivity.
Qed.

(** A marker becomes a button wherever it stands in the text, whatever its
    number; the scan goes on after the closing bracket. *)
Lemma scan_marker_anywhere srcs ds post :
  ds <> EmptyString -> all_chars is_digit ds = true ->
  forall pre (skip : nat) pending,
    (skip <= String.length pre)%nat ->
    exists before,
      scan srcs skip pending (pre ++ String "[" (ds ++ String "]" post))
      = (before ++
         citation_button (parseInt ds) srcs ::
         scan srcs 0 EmptyString post)%list.
Proof.
  intros Hne Hds pre; induction pre as [|c pre IH]; intros skip pending Hs.
  - destruct skip; [|cbn in Hs; lia].
    exists (push_text pending).
    cbn [String.append scan]; rewrite (match_here_marker _ _ Hne Hds).
    do 2 f_equal.
    replace (ds ++ String "]" post)%string
      with ((ds ++ "]") ++ post)%string
      by (rewrite append_assoc_char; reflexivity).
    rewrite <- length_append_one; apply scan_skip.
  - cbn [String.append scan String.length] in *.
    destruct skip as [|k]; [|apply IH; lia].
    destruct (match_here
                (String c (pre ++ String "[" (ds ++ String "]" post))))
      as [[ds' len]|] eqn:E.
    + apply match_here_within in E.
      destruct (IH (len - 1)%nat EmptyString E) as [before Hb].
      exists (push_text pending ++
              citation_button (parseInt ds') srcs :: before)%list.
      rewrite Hb, <- app_assoc; reflexivity.
    + apply IH; lia.
Qed.

(** C3. A marker [[n]] whose number is outside the range of the sources
    (above their number, or below 1) is inert: the handler does nothing for
    such a number, in both components, and a click on the button made for
    the marker, which carries the number [parseInt] reads from the digits,
    seeks nothing and opens nothing.  A text child of a paragraph or list
    item is left as literal text when the message has no sources or an
    empty list; with a non-empty list every marker in it, in range or not,
    is rendered as a button, wherever it stands in the text. *)
Theorem citation_out_of_range (onSeekVideo : bool) srcs :
  (forall n,
     Z.of_nat (length srcs) < n \/ n < 1 ->
     Message.handleCitationClick onSeekVideo n (Some srcs) = [] /\
     VideoSummaryDisplay.handleCitationClick onSeekVideo n (Some srcs) = [] /\
     Message.handleCitationClick onSeekVideo n None = []) /\
  (forall ds,
     ds <> EmptyString -> all_chars is_digit ds = true ->
     Z.of_nat (length srcs) < digits_value ds \/ digits_value ds < 1 ->
     Z.of_nat (length srcs) < 2 ^ 53 ->
     Message.click onSeekVideo (citation_button (parseInt ds) srcs) = [] /\
     VideoSummaryDisplay.click onSeekVideo
       (citation_button (parseInt ds) srcs) = []) /\
  (forall text,
     Message.render_text_child None text = plain_text text /\
     Message.render_text_child (Some []) text = plain_text text) /\
  (forall pre ds post,
     srcs <> [] ->
     ds <> EmptyString -> all_chars is_digit ds = true ->
     exists before,
       Message.render_text_child (Some srcs)
         (pre ++ String "[" (ds ++ String "]" post)) =
       fragment (before ++ citation_button (parseInt ds) srcs ::
                 scan srcs 0 EmptyString post)%list /\
       VideoSummaryDisplay.processTextWithCitations
         (pre ++ String "[" (ds ++ String "]" post)) srcs =
       fragment (before ++ citation_button (parseInt ds) srcs ::
                 scan srcs 0 EmptyString post)%list).
Proof.
  split; [|split; [|split]].
  - intros n H.
    split; [apply handleCitationClick_no_source, H|].
    split; [apply handleCitationClick_no_source, H | reflexivity].
  - intros ds _ Hds Hout Hlen.
    split; apply (click_out_of_range onSeekVideo srcs ds Hds Hout Hlen).
  - intros text; split; reflexivity.
  - intros pre ds post Hne Hds Hdig.
    destruct (scan_marker_anywhere srcs ds post Hds Hdig pre 0%nat
                EmptyString ltac:(lia)) as [before Hb].
    exists before.
    unfold Message.render_text_child, Message.renderContentWithCitations.
    destruct srcs as [|s0 srcs']; [congruence|].
    unfold Message.processTextWithCitations,
      VideoSummaryDisplay.processTextWithCitations.
    rewrite Hb; destruct before; split; reflexivity.
Qed.

End OutOfRange.

Lemma citation_out_of_range_witness :
  Message.click false
    (citation_button (parseInt "5") [Examples.lecture]) = [] /\
  exists before,
    Message.render_text_child (Some [Examples.lecture]) "Twice [1], see [5]."
    = fragment (before ++ citation_button (parseInt "5") [Examples.lecture] ::
                scan [Examples.lecture] 0 EmptyString ".")%list.
Proof.
  destruct (citation_out_of_range false [Examples.lecture])
    as (_ & Hclick & _ & Hbutton).
  split.
  - apply (Hclick "5"); [discriminate | reflexivity | |];
      vm_compute; [left|]; reflexivity.
  - destruct (Hbutton "Twice [1], see " "5" ".") as [before [H _]];
      [discriminate | discriminate | reflexivity |].
    exists before; exact H.
Defined.

(** With one source attached, the marker [[5]] is not left as literal
    text: it is rendered as a button, on which a click does nothing. *)
Lemma out_of_range_marker_is_button :
  Message.render_text_child (Some [Examples.lecture]) "See [5]." =
    fragment [text_node "See ";
              citation_button (Number_of_Z 5) [Examples.lecture];
              text_node "."] /\
  Message.render_text_child (Some [Examples.lecture]) "See [5]." <>
    plain_text "See [5]." /\
  VideoSummaryDisplay.processTextWithCitations "See [5]." [Examples.lecture] =
    fragment [text_node "See ";
              citation_button (Number_of_Z 5) [Examples.lecture];
              text_node "."] /\
  Message.click false (citation_button (Number_of_Z 5) [Examples.lecture])
    = [].
Proof.
  split; [vm_compute; reflexivity|].
  split; [vm_compute; discriminate|].
  split; vm_compute; reflexivity.
Qed.

(** From 2^53 on [parseInt] rounds: the button made for
    [[9007199254740993]] carries 9007199254740992, and the one made for a
    marker of 310 digits carries [Infinity]; a click on it does nothing. *)
Lemma parseInt_rounds :
  integer_value (parseInt "9007199254740993") = Some 9007199254740992 /\
  Message.render_text_child (Some [Examples.lecture]) "[9007199254740993]" =
    fragment [citation_button (Number_of_Z 9007199254740992)
                [Examples.lecture]] /\
  parseInt (padStart 310 "9" "") = S754_infinity false /\
  Message.click false
    (citation_button (parseInt (padStart 310 "9" "")) [Examples.lecture])
  = [].
Proof. repeat split; vm_compute; reflexivity. Qed.

(** ** The time label of the video player *)

Import VideoPlayer.

Section FormatTime.

Lemma sixty_normal_form :
  Number_of_Z 60 = S754_finite false 8444249301319680 (-47).
Proof. vm_compute; reflexivity. Qed.

(** Rounding keeps the sign it is given. *)
Lemma binary_round_aux_sign (sx : bool) (m e : Z) (l : location) :
  match binary_round_aux prec emax sx m e l with
  | S754_zero s | S754_infinity s | S754_finite s _ _ => s = sx
  | S754_nan => True
  end.
Proof.
  unfold binary_round_aux.
  destruct (shr_fexp prec emax m e l) as [mrs' e'].
  destruct (shr_fexp prec emax _ e' loc_Exact) as [mrs'' e''].
  destruct (shr_m mrs'') as [|p|p]; [reflexivity| |exact I].
  destruct (e'' <=? emax - prec); reflexivity.
Qed.

Lemma div_60_sign (m : positive) (e : Z) :
  match Number_div (S754_finite false m e) (Number_of_Z 60) with
  | S754_zero s | S754_infinity s | S754_finite s _ _ => s = false
  | S754_nan => True
  end.
Proof.
  rewrite sixty_normal_form; unfold Number_div, SFdiv.
  destruct (SFdiv_core_binary prec emax (Z.pos m) e _ _) as [[mz ez] lz].
  apply binary_round_aux_sign.
Qed.

Lemma floor_scaled_nonneg (m e : Z) : 0 <= m -> 0 <= floor_scaled m e.
Proof.
  intros Hm; unfold floor_scaled; destruct (Z.leb_spec 0 e).
  - apply Z.mul_nonneg_nonneg; [exact Hm | apply Z.pow_nonneg; lia].
  - apply Z.div_pos; [exact Hm | apply Z.pow_pos_nonneg; lia].
Qed.

Lemma integer_value_integral (b : bool) (z : Z) :
  integer_value (integral b z) = Some z.
Proof.
  destruct z as [|p|p]; [reflexivity| |]; unfold integral, integer_value;
    rewrite Z.pow_0_r, Z.mul_1_r; reflexivity.
Qed.

Lemma Number_toString_integral (b : bool) (z : Z) :
  Z.abs z < 2 ^ 53 -> Number_toString (integral b z) = decimal z.
Proof.
  intros Hz; destruct z as [|p|p]; [reflexivity| |].
  - unfold integral, Number_toString.
    change (S754_finite false p 0) with (integral false (Z.pos p)).
    rewrite integer_value_integral.
    destruct (Z.ltb_spec (Z.abs (Z.pos p)) (2 ^ 53)); [reflexivity | lia].
  - unfold integral, Number_toString.
    change (S754_finite true p 0) with (integral false (Z.neg p)).
    rewrite integer_value_integral.
    destruct (Z.ltb_spec (Z.abs (Z.neg p)) (2 ^ 53)); [reflexivity | lia].
Qed.

Lemma div_pow2_mod (N a c : Z) :
  0 <= a -> 0 < c -> (N mod (c * 2 ^ a)) / 2 ^ a = (N / 2 ^ a) mod c.
Proof.
  intros Ha Hc.
  assert (Hp : 0 < 2 ^ a) by (apply Z.pow_pos_nonneg; lia).
  rewrite (Z.mul_comm c), Z.rem_mul_r by lia.
  rewrite Z.mul_comm, Z.div_add by lia.
  rewrite Z.div_small by (apply Z.mod_pos_bound; lia).
  reflexivity.
Qed.

Lemma scaled_div (m e a : Z) :
  0 <= a -> 0 <= e + a -> (m * 2 ^ (e + a)) / 2 ^ a = floor_scaled m e.
Proof.
  intros Ha Hea; unfold floor_scaled; destruct (Z.leb_spec 0 e).
  - rewrite Z.pow_add_r, Z.mul_assoc by lia.
    apply Z.div_mul; apply Z.pow_nonzero; lia.
  - replace a with ((e + a) + - e) at 2 by lia.
    rewrite (Z.pow_add_r 2 (e + a) (- e)) by lia.
    rewrite (Z.mul_comm m), Z.div_mul_cancel_l; [reflexivity| |];
      apply Z.pow_nonzero; lia.
Qed.

(** The seconds field: [Math.floor(seconds % 60)] is the floor of
    [seconds] modulo 60. *)
Lemma floor_rem_60 (m : positive) (e : Z) :
  Math_floor (Number_rem (S754_finite false m e) (Number_of_Z 60))
  = integral false (floor_scaled (Z.pos m) e mod 60).
Proof.
  rewrite sixty_normal_form; unfold Number_rem.
  set (e0 := Z.min e (-47)).
  assert (He0 : e0 <= -47 /\ e0 <= e) by (subst e0; lia).
  replace (8444249301319680 * 2 ^ (-47 - e0))
    with (60 * 2 ^ (- e0)).
  2:{ replace (- e0) with (47 + (-47 - e0)) by lia.
      rewrite Z.pow_add_r by lia.
      change 8444249301319680 with (60 * 2 ^ 47); ring. }
  assert (Hr : (Z.pos m * 2 ^ (e - e0)) mod (60 * 2 ^ (- e0)) / 2 ^ (- e0)
               = floor_scaled (Z.pos m) e mod 60).
  { rewrite div_pow2_mod by lia.
    replace (e - e0) with (e + - e0) by lia.
    rewrite scaled_div by lia; reflexivity. }
  assert (Hpos : 0 <= (Z.pos m * 2 ^ (e - e0)) mod (60 * 2 ^ (- e0))).
  { apply Z.mod_pos_bound.
    apply Z.mul_pos_pos; [lia | apply Z.pow_pos_nonneg; lia]. }
  destruct ((Z.pos m * 2 ^ (e - e0)) mod (60 * 2 ^ (- e0))) as [|p|p] eqn:E.
  - rewrite <- Hr; reflexivity.
  - rewrite <- Hr; unfold Math_floor, floor_scaled; simpl cond_Zopp.
    destruct (Z.leb_spec 0 e0); [lia | reflexivity].
  - lia.
Qed.

Lemma two_digits (r : Z) :
  0 <= r < 60 -> String.length (padStart 2 "0" (decimal r)) = 2%nat.
Proof.
  intros Hr; rewrite <- (Z2Nat.id r) by lia.
  assert (Hn : (Z.to_nat r < 60)%nat) by lia.
  revert Hn; generalize (Z.to_nat r); intros n Hn.
  do 60 (destruct n as [|n]; [reflexivity|]); lia.
Qed.

Lemma padStart_2_length (s : string) :
  (2 <= String.length (padStart 2 "0" s))%nat.
Proof.
  destruct s as [|c [|c' s']]; unfold padStart; simpl; lia.
Qed.

Lemma string_of_uint_digits (d : Decimal.uint) :
  all_chars is_digit (NilEmpty.string_of_uint d) = true.
Proof. induction d; simpl; auto. Qed.

Lemma decimal_digits (q : Z) :
  0 <= q -> all_chars is_digit (decimal q) = true.
Proof.
  intros Hq; unfold decimal, NilZero.string_of_int.
  destruct q as [|p|p]; [reflexivity| |lia].
  simpl Z.to_int; unfold NilZero.string_of_uint.
  destruct (Pos.to_uint p) eqn:E; [reflexivity|..];
    rewrite <- E; apply string_of_uint_digits.
Qed.

(** C10. [formatTime] is defined on every number.  On [NaN] and the
    infinities it gives ["00:00"].  On a finite number that is not negative
    and whose minute count [Math.floor(seconds / 60)] is below 2^53 it
    gives the decimal digits of that count, padded with zeros to at least
    two characters, a colon, and the floor of the seconds modulo 60 on
    exactly two digits. *)
Theorem formatTime_spec (seconds : Number) :
  (isFinite seconds = false -> formatTime seconds = "00:00") /\
  (forall q,
     isFinite seconds = true ->
     Number_lt seconds (Number_of_Z 0) = false ->
     integer_value (Math_floor (Number_div seconds (Number_of_Z 60)))
       = Some q ->
     q < 2 ^ 53 ->
     0 <= q /\
     formatTime seconds =
       (padStart 2 "0" (decimal q) ++ ":" ++
        padStart 2 "0" (decimal (floorZ seconds mod 60)))%string /\
     all_chars is_digit (decimal q) = true /\
     (2 <= String.length (padStart 2 "0" (decimal q)))%nat /\
     all_chars is_digit (padStart 2 "0" (decimal (floorZ seconds mod 60)))
       = true /\
     String.length (padStart 2 "0" (decimal (floorZ seconds mod 60)))
       = 2%nat).
Proof.
  split.
  - intros H; unfold formatTime; rewrite H; reflexivity.
  - intros q Hfin Hlt Hq Hbound.
    assert (Hmod : 0 <= floorZ seconds mod 60 < 60)
      by (apply Z.mod_pos_bound; lia).
    assert (Hsecs : Number_toString
                      (Math_floor (Number_rem seconds (Number_of_Z 60)))
                    = decimal (floorZ seconds mod 60)).
    { destruct seconds as [b|b| |[|] m e]; try discriminate.
      - rewrite sixty_normal_form; reflexivity.
      - rewrite floor_rem_60; apply Number_toString_integral.
        simpl floorZ in Hmod; simpl floorZ; lia. }
    assert (Hmins : 0 <= q /\
              Number_toString
                (Math_floor (Number_div seconds (Number_of_Z 60)))
              = decimal q).
    { destruct seconds as [b|b| |[|] m e]; try discriminate.
      - rewrite sixty_normal_form in *; simpl in Hq.
        injection Hq as <-; split; [lia | reflexivity].
      - pose proof (div_60_sign m e) as Hs.
        destruct (Number_div (S754_finite false m e) (Number_of_Z 60))
          as [s|s| |s m' e']; try discriminate.
        + simpl in Hq; injection Hq as <-; split; [lia | reflexivity].
        + subst s; unfold Math_floor in *; simpl cond_Zopp in *.
          rewrite integer_value_integral in Hq; injection Hq as <-.
          pose proof (floor_scaled_nonneg (Z.pos m') e' ltac:(lia)).
          split; [assumption|].
          apply Number_toString_integral; lia. }
    destruct Hmins as [Hq0 Hmins].
    split; [exact Hq0|]. split.
    { unfold formatTime; rewrite Hfin.
      destruct seconds; try discriminate; simpl negb; simpl orb;
        cbv iota; cbv zeta; rewrite Hmins, Hsecs; reflexivity. }
    split; [apply decimal_digits, Hq0|].
    split; [apply padStart_2_length|].
    split; [|apply two_digits, Hmod].
    revert Hmod; generalize (floorZ seconds mod 60); intros r Hr.
    rewrite <- (Z2Nat.id r) by lia.
    assert (Hn : (Z.to_nat r < 60)%nat) by lia.
    revert Hn; generalize (Z.to_nat r); intros n Hn.
    do 60 (destruct n as [|n]; [reflexivity|]); lia.
Qed.

End FormatTime.

Lemma formatTime_spec_witness :
  formatTime (S754_infinity false) = "00:00" /\
  formatTime (Number_of_Z 125) =
    (padStart 2 "0" (decimal 2) ++ ":" ++
     padStart 2 "0" (decimal (floorZ (Number_of_Z 125) mod 60)))%string /\
  formatTime (Number_of_Z 125) = "02:05".
Proof.
  split; [|split].
  - apply (proj1 (formatTime_spec (S754_infinity false))); reflexivity.
  - apply (proj2 (formatTime_spec (Number_of_Z 125)) 2);
      [reflexivity | reflexivity | vm_compute; reflexivity | lia].
  - vm_compute; reflexivity.
Defined.

(** Five seconds before zero: the label is ["-1:-5"], which is not a
    minute field followed by a colon and two digits. *)
Lemma formatTime_negative :
  isFinite (Number_of_Z (-5)) = true /\
  formatTime (Number_of_Z (-5)) = "-1:-5" /\
  ~ (exists (mm : string) (d1 d2 : ascii),
       is_digit d1 = true /\ is_digit d2 = true /\
       formatTime (Number_of_Z (-5))
       = (mm ++ ":" ++ String d1 (String d2 ""))%string).
Proof.
  split; [reflexivity|]. split; [vm_compute; reflexivity|].
  replace (formatTime (Number_of_Z (-5))) with "-1:-5"
    by (vm_compute; reflexivity).
  intros (mm & d1 & d2 & H1 & H2 & E).
  destruct mm as [|a [|b [|c [|d [|f mm]]]]]; simpl in E;
    try discriminate E.
  - injection E; intros; subst; discriminate H1.
  - injection E; intros E' _ _ _ _ _; destruct mm; discriminate E'.
Qed.

(** ** Lines of a chunked body *)

Import Lines.

Section SplitLines.

Lemma split_newline_nonempty (s : string) : split_newline s <> [].
Proof.
  destruct s as [|c s]; simpl; [discriminate|].
  destruct (Ascii.eqb c newline); [discriminate|].
  destruct (split_newline s); discriminate.
Qed.

Lemma split_newline_app (s t : string) :
  split_newline (s ++ t) =
  (List.removelast (split_newline s) ++
   split_newline (List.last (split_newline s) EmptyString ++ t))%list.
Proof.
  induction s as [|c s IH]; [reflexivity|].
  pose proof (split_newline_nonempty s) as Hne.
  cbn [String.append split_newline].
  destruct (Ascii.eqb c newline) eqn:Ec.
  - rewrite IH; destruct (split_newline s) as [|h tl]; [congruence|].
    reflexivity.
  - rewrite IH; destruct (split_newline s) as [|h [|h2 tl]]; [congruence| |].
    + cbn [List.removelast List.last app String.append split_newline].
      rewrite Ec; reflexivity.
    + reflexivity.
Qed.

Lemma split_newline_single (s : string) :
  no_newline s = true -> split_newline s = [s].
Proof.
  induction s as [|c s IH]; [reflexivity|]; intros H.
  unfold no_newline in H; simpl in H; apply andb_prop in H as [Hc Hs].
  cbn [split_newline]; apply negb_true_iff in Hc; rewrite Hc, (IH Hs).
  reflexivity.
Qed.

Lemma last_line_no_newline (s : string) :
  no_newline (List.last (split_newline s) EmptyString) = true.
Proof.
  induction s as [|c s IH]; [reflexivity|].
  pose proof (split_newline_nonempty s) as Hne.
  cbn [split_newline]; destruct (Ascii.eqb c newline) eqn:Ec.
  - destruct (split_newline s) as [|h tl]; [congruence | exact IH].
  - destruct (split_newline s) as [|h [|h2 tl]]; [congruence| |exact IH].
    simpl in *; unfold no_newline; simpl; rewrite Ec; exact IH.
Qed.

Lemma append_empty_r (s : string) : (s ++ "")%string = s.
Proof. induction s as [|c s IH]; simpl; [|rewrite IH]; reflexivity. Qed.

Lemma append_assoc (s t u : string) :
  ((s ++ t) ++ u = s ++ (t ++ u))%string.
Proof. induction s as [|c s IH]; simpl; [|rewrite IH]; reflexivity. Qed.

(** Reading one more chunk: the complete lines of the longer text. *)
Lemma complete_lines_step (buffer value rest : string) :
  complete_lines (buffer ++ (value ++ rest)) =
  (List.removelast (split_newline (buffer ++ value)) ++
   complete_lines
     (List.last (split_newline (buffer ++ value)) EmptyString ++ rest))%list.
Proof.
  unfold complete_lines.
  rewrite <- append_assoc, split_newline_app.
  apply removelast_app, split_newline_nonempty.
Qed.

Lemma before_done_app (l1 l2 : list string) :
  before_done (l1 ++ l2) =
  if has_done l1 then before_done l1 else (l1 ++ before_done l2)%list.
Proof.
  induction l1 as [|l l1 IH]; [reflexivity|]; simpl.
  destruct (is_done l); simpl; [reflexivity|].
  rewrite IH; destruct (has_done l1); reflexivity.
Qed.

Lemma before_done_all (l : list string) :
  has_done l = false -> before_done l = l.
Proof.
  induction l as [|x l IH]; [reflexivity|]; simpl; intros H.
  apply orb_false_elim in H as [Hx Hl]; rewrite Hx, (IH Hl); reflexivity.
Qed.

Lemma has_done_app (l1 l2 : list string) :
  has_done (l1 ++ l2) = has_done l1 || has_done l2.
Proof. apply existsb_app. Qed.

End SplitLines.

(** ** The two readers *)

Section Readers.

Context {Src Any : Type}.
Variable JSON_parse : string -> option (Api.JSONValue Src Any).
Variable options : UseSSE.UseSSEOptions.

Local Abbreviation event_of := (event_of_line JSON_parse).
Local Abbreviation dispatch := (UseSSE.dispatch options).
Local Abbreviation for_lines := (UseSSE.for_lines JSON_parse options).
Local Abbreviation read_loop := (UseSSE.read_loop JSON_parse options).

Implicit Types (v : UseSSE.variables Src) (lines : list string)
  (events : list (Api.JSONValue Src Any)).

Lemma omap_step {A B} (f : A -> option B) (x : A) (l : list A) :
  omap f (x :: l) =
  match f x with Some y => y :: omap f l | None => omap f l end.
Proof. reflexivity. Qed.

Lemma yield_lines lines :
  flat_map (Api.yield_line JSON_parse) lines = omap event_of lines.
Proof.
  induction lines as [|l lines IH]; [reflexivity|]; simpl; rewrite IH.
  unfold Api.yield_line, event_of_line.
  destruct (data_payload l) as [payload|]; simpl; [|reflexivity].
  destruct (JSON_parse payload); reflexivity.
Qed.

Lemma streamSSE_read_lines (chunks : list string) (buffer : string) :
  no_newline buffer = true ->
  Api.streamSSE_read JSON_parse buffer chunks
  = omap event_of (complete_lines (buffer ++ join chunks)).
Proof.
  revert buffer; induction chunks as [|value chunks IH]; intros buffer Hb.
  - simpl; rewrite append_empty_r; unfold complete_lines.
    rewrite (split_newline_single _ Hb); reflexivity.
  - cbn [Api.streamSSE_read join fold_right].
    rewrite complete_lines_step, omap_app, yield_lines.
    rewrite IH by apply last_line_no_newline; reflexivity.
Qed.

Lemma dispatch_all_app v events events' :
  dispatch_all options v (events ++ events') =
  let '(v', calls) := dispatch_all options v events in
  let '(v'', calls') := dispatch_all options v' events' in
  (v'', (calls ++ calls')%list).
Proof.
  revert v; induction events as [|e events IH]; intros v; simpl.
  - destruct (dispatch_all options v events'); reflexivity.
  - destruct (dispatch v e) as [v1 c1]; rewrite IH.
    destruct (dispatch_all options v1 events) as [v2 c2].
    destruct (dispatch_all options v2 events') as [v3 c3].
    rewrite app_assoc; reflexivity.
Qed.

(** The loop over the lines dispatches the values of the lines that come
    before the sentinel, and returns at the sentinel. *)
Lemma for_lines_spec v lines :
  for_lines v lines =
  let '(v', calls) := dispatch_all options v (omap event_of (before_done lines)) in
  if has_done lines then ((calls ++ [UseSSE.call_onDone v'])%list, None)
  else (calls, Some v').
Proof.
  revert v; induction lines as [|l lines IH]; intros v; [reflexivity|].
  cbn [UseSSE.for_lines before_done has_done existsb].
  fold (has_done lines).
  assert (Hd : is_done l = match data_payload l with
                           | Some data => String.eqb data "[DONE]"
                           | None => false
                           end) by reflexivity.
  assert (He : event_of l = data_payload l ≫= JSON_parse) by reflexivity.
  destruct (data_payload l) as [data|].
  2:{ rewrite Hd, omap_step, He; apply IH. }
  destruct (String.eqb data "[DONE]"); rewrite Hd; [reflexivity|].
  rewrite omap_step, He; simpl mbind; cbn [orb].
  destruct (JSON_parse data) as [parsed|]; [|apply IH].
  cbn [dispatch_all]; destruct (dispatch v parsed) as [v1 c1]; rewrite IH.
  destruct (dispatch_all options v1 _) as [v2 c2].
  destruct (has_done lines); [rewrite app_assoc|]; reflexivity.
Qed.

Lemma read_loop_lines (failure : option string) (chunks : list string)
    (buffer : string) v :
  no_newline buffer = true ->
  read_loop buffer v chunks failure =
  let lines := complete_lines (buffer ++ join chunks) in
  let '(v', calls) := dispatch_all options v (omap event_of (before_done lines)) in
  (calls ++ [final_call (has_done lines) failure v'])%list.
Proof.
  revert buffer v; induction chunks as [|value chunks IH]; intros buffer v Hb.
  - cbv zeta; simpl join; rewrite append_empty_r; unfold complete_lines.
    rewrite (split_newline_single _ Hb); simpl.
    destruct failure; reflexivity.
  - cbv zeta; cbn [UseSSE.read_loop join fold_right].
    rewrite complete_lines_step, for_lines_spec.
    set (l1 := List.removelast (split_newline (buffer ++ value))).
    set (b' := List.last (split_newline (buffer ++ value)) EmptyString).
    rewrite before_done_app, has_done_app.
    destruct (has_done l1) eqn:Hd; simpl orb.
    + destruct (dispatch_all options v (omap event_of (before_done l1)))
        as [v1 c1].
      destruct failure; reflexivity.
    + rewrite (before_done_all _ Hd), omap_app, dispatch_all_app.
      destruct (dispatch_all options v (omap event_of l1)) as [v1 c1].
      rewrite (IH b' v1) by apply last_line_no_newline.
      cbv zeta.
      destruct (dispatch_all options v1 _) as [v2 c2].
      rewrite app_assoc; reflexivity.
Qed.

End Readers.

Section Stream.

Context {Src Any : Type}.
Variable JSON_parse : string -> option (Api.JSONValue Src Any).
Variable options : UseSSE.UseSSEOptions.

Local Abbreviation event_of := (event_of_line JSON_parse).

Implicit Types (v : UseSSE.variables Src)
  (events : list (Api.JSONValue Src Any)).

Lemma substring_all (s : string) : String.substring 0 (String.length s) s = s.
Proof. induction s as [|c s IH]; simpl; [|rewrite IH]; reflexivity. Qed.

Lemma prefix_split (p s : string) :
  String.prefix p s = true ->
  s = (p ++ substring_from (String.length p) s)%string.
Proof.
  revert s; induction p as [|a p IH]; intros s H.
  - unfold substring_from; simpl; rewrite Nat.sub_0_r, substring_all.
    reflexivity.
  - destruct s as [|b s]; cbn [String.prefix] in H; [discriminate H|].
    destruct (ascii_dec a b) as [->|_]; [|discriminate H].
    simpl; f_equal; apply IH, H.
Qed.

Lemma data_payload_spec (line payload : string) :
  data_payload line = Some payload <-> line = ("data: " ++ payload)%string.
Proof.
  split.
  - unfold data_payload; destruct (String.prefix "data: " line) eqn:E;
      [|discriminate]; intros [= <-].
    apply (prefix_split "data: " line E).
  - intros ->; unfold data_payload, substring_from; simpl.
    rewrite ?Nat.sub_0_r, substring_all; destruct payload; reflexivity.
Qed.

Lemma dispatch_content v (parsed : Api.JSONValue Src Any) :
  let '(v', calls) := UseSSE.dispatch options v parsed in
  UseSSE.content v' =
    (UseSSE.content v ++
     match token_content parsed with Some t => t | None => "" end)%string /\
  forallb (fun c => negb (is_onDone c)) calls = true /\
  omap onToken_argument calls
  = match token_content parsed with Some t => [t] | None => [] end.
Proof.
  destruct parsed as [|ev]; simpl.
  { rewrite append_empty_r; auto. }
  destruct (Api.type ev) as [t|]; [|rewrite append_empty_r; auto].
  destruct (String.eqb t "token"); [auto|].
  repeat match goal with
         | |- context [String.eqb ?a ?b] => destruct (String.eqb a b)
         end;
    simpl; rewrite append_empty_r;
    try destruct (UseSSE.has_onProgress options);
    try destruct (UseSSE.has_onValidation options); auto.
Qed.

Lemma dispatch_all_content events v :
  let '(v', calls) := dispatch_all options v events in
  UseSSE.content v' =
    (UseSSE.content v ++ join (omap token_content events))%string /\
  forallb (fun c => negb (is_onDone c)) calls = true /\
  omap onToken_argument calls = omap token_content events.
Proof.
  revert v; induction events as [|e events IH]; intros v.
  { simpl; rewrite append_empty_r; auto. }
  cbn [dispatch_all].
  pose proof (dispatch_content v e) as H.
  destruct (UseSSE.dispatch options v e) as [v1 c1].
  destruct H as (Hc & Hd & Ht).
  specialize (IH v1); destruct (dispatch_all options v1 events) as [v2 c2].
  destruct IH as (Hc' & Hd' & Ht').
  rewrite omap_step, omap_app, forallb_app, Hd, Hd', Ht, Ht', Hc', Hc.
  destruct (token_content e) as [t|]; simpl;
    rewrite ?append_empty_r, ?append_assoc; auto.
Qed.

Lemma tokens_events (lines : list string) :
  tokens JSON_parse lines
  = omap token_content (omap event_of (before_done lines)).
Proof.
  unfold tokens; induction (before_done lines) as [|l ls IH];
    [reflexivity|].
  rewrite !omap_step, IH.
  destruct (event_of l) as [e|]; [rewrite omap_step|]; reflexivity.
Qed.

(** C4. The content passed to [onDone], at the sentinel or at the end of
    the stream, is the concatenation in order of the contents of the token
    events processed (the empty string for a missing content): these are
    the token events of the lines that precede the sentinel.  They are also
    exactly the tokens passed to [onToken].  No other event adds to it, and
    [onDone] is called once, last, unless a failed read ends in
    [onError]. *)
Theorem startStream_onDone_content (chunks : list string)
    (failure : option string) :
  let lines := complete_lines (join chunks) in
  let text := join (tokens JSON_parse lines) in
  let calls := UseSSE.startStream JSON_parse options (body chunks failure) in
  (forall content srcs sid qid,
     In (UseSSE.onDone content srcs sid qid) calls -> content = text) /\
  (failure = None \/ has_done lines = true ->
   exists before srcs sid qid,
     calls = (before ++ [UseSSE.onDone text srcs sid qid])%list /\
     forallb (fun c => negb (is_onDone c)) before = true) /\
  omap onToken_argument calls = tokens JSON_parse lines.
Proof.
  cbv zeta; unfold UseSSE.startStream.
  rewrite (read_loop_lines JSON_parse options failure chunks EmptyString)
    by reflexivity.
  cbv zeta; simpl String.append; rewrite tokens_events.
  set (lines := complete_lines (join chunks)).
  pose proof (dispatch_all_content (omap event_of (before_done lines))
                UseSSE.initial) as H.
  destruct (dispatch_all options UseSSE.initial _) as [v' before].
  destruct H as (Hc & Hd & Ht); simpl in Hc.
  assert (Hdone : UseSSE.call_onDone (Any := Any) v' =
            UseSSE.onDone
              (join (omap token_content (omap event_of (before_done lines))))
              (if (0 <? length (UseSSE.sources v'))%nat
               then Some (UseSSE.sources v') else None)
              (UseSSE.sessionId v') (UseSSE.quizId v'))
    by (unfold UseSSE.call_onDone; rewrite Hc; reflexivity).
  split; [|split].
  - intros content srcs sid qid Hin.
    apply in_app_or in Hin as [Hin|[Hin|[]]].
    + rewrite forallb_forall in Hd; apply Hd in Hin; discriminate Hin.
    + unfold final_call in Hin; rewrite Hdone in Hin.
      destruct failure; [destruct (has_done lines)|];
        inversion Hin; reflexivity.
  - intros Hok; eexists before, _, _, _; split; [|exact Hd].
    f_equal; unfold final_call; rewrite Hdone.
    destruct Hok as [-> | ->]; [reflexivity|].
    destruct failure; reflexivity.
  - rewrite omap_app, Ht; unfold final_call.
    destruct failure; [destruct (has_done lines)|]; simpl;
      apply app_nil_r.
Qed.

(** C7. Both readers take their events from the newline-terminated lines
    that begin with [data: ] and whose payload is parsed by [JSON.parse],
    in order; any other line, and a [data: ] line whose payload is not
    JSON, is passed over and the lines after it are still read.  The one
    exception is the line [data: [DONE]] in [useSSE]: there [onDone] is
    called and no later line is read. *)
Theorem sse_readers_lines (chunks : list string) (failure : option string) :
  let lines := complete_lines (join chunks) in
  Api.streamSSE JSON_parse (body chunks failure)
    = (omap event_of lines, failure) /\
  UseSSE.startStream JSON_parse options (body chunks failure)
    = (let '(v, calls) :=
         dispatch_all options UseSSE.initial
                      (omap event_of (before_done lines)) in
       (calls ++ [final_call (has_done lines) failure v])%list) /\
  (forall line parsed,
     event_of line = Some parsed <->
     exists payload, line = ("data: " ++ payload)%string /\
                     JSON_parse payload = Some parsed) /\
  (forall line, is_done line = true <-> line = "data: [DONE]").
Proof.
  cbv zeta; split; [|split; [|split]].
  - unfold Api.streamSSE; f_equal.
    apply (streamSSE_read_lines JSON_parse chunks EmptyString); reflexivity.
  - unfold UseSSE.startStream.
    apply (read_loop_lines JSON_parse options failure chunks EmptyString).
    reflexivity.
  - intros line parsed; unfold event_of_line; split.
    + destruct (data_payload line) as [payload|] eqn:E; [|discriminate].
      intros H; exists payload; split; [apply data_payload_spec, E | exact H].
    + intros (payload & Hl & Hp); apply data_payload_spec in Hl.
      rewrite Hl; exact Hp.
  - intros line; unfold is_done; split.
    + destruct (data_payload line) as [payload|] eqn:E; [|discriminate].
      intros H; apply String.eqb_eq in H; subst.
      apply data_payload_spec, E.
    + intros ->; reflexivity.
Qed.

End Stream.

Lemma startStream_onDone_content_witness :
  exists before srcs sid qid,
    UseSSE.startStream Examples.JSON_parse_sample Examples.all_callbacks
      (body Examples.hello_chunks None)
    = (before ++ [UseSSE.onDone "Hello" srcs sid qid])%list /\
    forallb (fun c => negb (is_onDone c)) before = true.
Proof.
  apply (proj1 (proj2 (startStream_onDone_content
                         Examples.JSON_parse_sample Examples.all_callbacks
                         Examples.hello_chunks None))).
  left; reflexivity.
Defined.

(** The sentinel line is not JSON, yet it is not passed over by [useSSE]:
    the token line after it is never dispatched, while [streamSSE] yields
    it. *)
Lemma useSSE_stops_at_sentinel :
  Examples.JSON_parse_sample "[DONE]" = None /\
  UseSSE.startStream Examples.JSON_parse_sample Examples.all_callbacks
    (body [Examples.done_then_token] None)
  = [UseSSE.onDone "" None None None] /\
  Api.streamSSE Examples.JSON_parse_sample
    (body [Examples.done_then_token] None)
  = ([Api.json_object (Examples.token_event (Some "Hel"))], None).
Proof. repeat split; vm_compute; reflexivity. Qed.

(** * Further properties *)

(** ** The readers and the framing of the body *)

Section Framing.

Context {Src Any : Type}.
Variable JSON_parse : string -> option (Api.JSONValue Src Any).
Variable options : UseSSE.UseSSEOptions.

Local Abbreviation event_of := (event_of_line JSON_parse).

Lemma streamSSE_lines (chunks : list string) (failure : option string) :
  Api.streamSSE JSON_parse (body chunks failure)
  = (omap event_of (complete_lines (join chunks)), failure).
Proof.
  unfold Api.streamSSE; f_equal.
  apply (streamSSE_read_lines JSON_parse chunks EmptyString); reflexivity.
Qed.

Lemma startStream_lines (chunks : list string) (failure : option string) :
  UseSSE.startStream JSON_parse options (body chunks failure)
  = (let lines := complete_lines (join chunks) in
     let '(v, calls) :=
       dispatch_all options UseSSE.initial
                    (omap event_of (before_done lines)) in
     (calls ++ [final_call (has_done lines) failure v])%list).
Proof.
  unfold UseSSE.startStream.
  apply (read_loop_lines JSON_parse options failure chunks EmptyString).
  reflexivity.
Qed.

(** X1.  The events yielded by [streamSSE] depend on the text of the body only,
    not on how the network cut it into chunks. *)
Theorem streamSSE_chunking (chunks chunks' : list string)
    (failure : option string) :
  join chunks = join chunks' ->
  Api.streamSSE JSON_parse (body chunks failure)
  = Api.streamSSE JSON_parse (body chunks' failure).
Proof. intros H; rewrite !streamSSE_lines, H; reflexivity. Qed.

(** X2.  The callbacks invoked by [startStream] depend on the text of the body
    only, not on how the network cut it into chunks. *)
Theorem startStream_chunking (chunks chunks' : list string)
    (failure : option string) :
  join chunks = join chunks' ->
  UseSSE.startStream JSON_parse options (body chunks failure)
  = UseSSE.startStream JSON_parse options (body chunks' failure).
Proof. intros H; rewrite !startStream_lines, H; reflexivity. Qed.

Lemma join_app (l1 l2 : list string) :
  join (l1 ++ l2) = (join l1 ++ join l2)%string.
Proof.
  induction l1 as [|c l1 IH]; [reflexivity|].
  change (join ((c :: l1) ++ l2)) with (c ++ join (l1 ++ l2))%string.
  change (join (c :: l1)) with (c ++ join l1)%string.
  rewrite IH, append_assoc; reflexivity.
Qed.

Lemma no_newline_app (s t : string) :
  no_newline (s ++ t) = no_newline s && no_newline t.
Proof.
  unfold no_newline; induction s as [|c s IH]; simpl; [reflexivity|].
  rewrite IH, andb_assoc; reflexivity.
Qed.

Lemma complete_lines_tail (s tail : string) :
  no_newline tail = true -> complete_lines (s ++ tail) = complete_lines s.
Proof.
  intros H; unfold complete_lines.
  rewrite split_newline_app.
  rewrite (split_newline_single
             (List.last (split_newline s) EmptyString ++ tail)).
  - apply removelast_last.
  - rewrite no_newline_app, last_line_no_newline, H; reflexivity.
Qed.

(** X3.  What follows the last newline of the body is never read: a last chunk
    without a newline changes nothing, for either reader. *)
Theorem readers_drop_unterminated_tail (chunks : list string)
    (tail : string) (failure : option string) :
  no_newline tail = true ->
  Api.streamSSE JSON_parse (body (chunks ++ [tail]) failure)
    = Api.streamSSE JSON_parse (body chunks failure) /\
  UseSSE.startStream JSON_parse options (body (chunks ++ [tail]) failure)
    = UseSSE.startStream JSON_parse options (body chunks failure).
Proof.
  intros H.
  assert (E : complete_lines (join (chunks ++ [tail]))
              = complete_lines (join chunks)).
  { rewrite join_app; simpl join; rewrite append_empty_r.
    apply complete_lines_tail, H. }
  rewrite !streamSSE_lines, !startStream_lines; cbv zeta; rewrite E.
  split; reflexivity.
Qed.

Lemma startStream_tokens (chunks : list string) (failure : option string) :
  omap onToken_argument
       (UseSSE.startStream JSON_parse options (body chunks failure))
  = omap token_content
         (omap event_of (before_done (complete_lines (join chunks)))).
Proof.
  rewrite startStream_lines; cbv zeta.
  pose proof (dispatch_all_content options
                (omap event_of (before_done (complete_lines (join chunks))))
                UseSSE.initial) as H.
  destruct (dispatch_all options UseSSE.initial _) as [v calls].
  destruct H as (_ & _ & Ht).
  rewrite omap_app, Ht; unfold final_call.
  destruct failure; [destruct (has_done _)|]; simpl; apply app_nil_r.
Qed.

(** X4.  On a body without the sentinel line the two readers see the same
    tokens: the arguments of [onToken] are the contents of the token events
    that [streamSSE] yields, in the same order.  With a sentinel, [useSSE]
    sees those of the lines before it. *)
Theorem readers_agree_on_tokens (chunks : list string)
    (failure : option string) :
  let lines := complete_lines (join chunks) in
  omap onToken_argument
       (UseSSE.startStream JSON_parse options (body chunks failure))
    = omap token_content (omap event_of (before_done lines)) /\
  (has_done lines = false ->
   omap onToken_argument
        (UseSSE.startStream JSON_parse options (body chunks failure))
   = omap token_content
          (fst (Api.streamSSE JSON_parse (body chunks failure)))).
Proof.
  cbv zeta; split; [apply startStream_tokens|].
  intros H; rewrite startStream_tokens, streamSSE_lines.
  rewrite (before_done_all _ H); reflexivity.
Qed.

End Framing.

Lemma streamSSE_chunking_witness :
  Api.streamSSE Examples.JSON_parse_sample (body Examples.hello_chunks None)
  = Api.streamSSE Examples.JSON_parse_sample
      (body [Lines.join Examples.hello_chunks] None).
Proof.
  apply (streamSSE_chunking Examples.JSON_parse_sample).
  vm_compute; reflexivity.
Defined.

Lemma startStream_chunking_witness :
  UseSSE.startStream Examples.JSON_parse_sample Examples.all_callbacks
    (body Examples.hello_chunks None)
  = UseSSE.startStream Examples.JSON_parse_sample Examples.all_callbacks
      (body [Lines.join Examples.hello_chunks] None).
Proof.
  apply (startStream_chunking Examples.JSON_parse_sample).
  vm_compute; reflexivity.
Defined.

Lemma readers_drop_unterminated_tail_witness :
  Api.streamSSE Examples.JSON_parse_sample
    (body ([Examples.done_then_token] ++ ["data: null"]) None)
  = Api.streamSSE Examples.JSON_parse_sample
      (body [Examples.done_then_token] None).
Proof.
  apply (readers_drop_unterminated_tail Examples.JSON_parse_sample
           Examples.all_callbacks).
  reflexivity.
Defined.

Lemma readers_agree_on_tokens_witness :
  omap onToken_argument
       (UseSSE.startStream Examples.JSON_parse_sample Examples.all_callbacks
          (body Examples.hello_chunks None))
  = omap token_content
         (fst (Api.streamSSE Examples.JSON_parse_sample
                 (body Examples.hello_chunks None))).
Proof.
  apply (readers_agree_on_tokens Examples.JSON_parse_sample
           Examples.all_callbacks Examples.hello_chunks None).
  vm_compute; reflexivity.
Defined.

(** ** The stream state over a whole stream *)

Ltac case_type t :=
  repeat match goal with
         | |- context [String.eqb t ?c] =>
             destruct (String.eqb_spec t c) as [->|?]; simpl
         end.

Section StreamStates.

Context {Src Any : Type}.
Variable JSON_parse : string -> option (Api.JSONValue Src Any).
Variable TypeError_message : string.

Local Abbreviation event_of := (event_of_line JSON_parse).
Local Abbreviation consume := (Hooks.consume JSON_parse TypeError_message).
Local Abbreviation handle_events := (Hooks.handle_events TypeError_message).

Implicit Types (event : Api.SSEEvent Src Any)
  (events : list (Api.SSEEvent Src Any))
  (values : list (Api.JSONValue Src Any))
  (st prev : UseApi.StreamState Src).

Lemma handleSSEEvent_flag event st :
  UseApi.isStreaming (UseApi.handleSSEEvent event st)
  = UseApi.isStreaming st
    && negb (Hooks.ends_streaming (Api.json_object event)).
Proof.
  unfold UseApi.handleSSEEvent, Hooks.ends_streaming.
  destruct (Api.type event) as [t|]; simpl;
    [|rewrite andb_true_r; reflexivity].
  case_type t; rewrite ?andb_true_r, ?andb_false_r; reflexivity.
Qed.

(** X5.  [handleSSEEvent] never turns [isStreaming] on: over any sequence of
    events the flag stays as it was until the first [done], [cached] or
    [error] event, and is false from then on, whatever comes after. *)
Theorem handleSSEEvent_streaming_flag events prev :
  UseApi.isStreaming (Hooks.handle_all events prev)
  = UseApi.isStreaming prev
    && negb (existsb (fun event =>
                        Hooks.ends_streaming (Api.json_object event)) events).
Proof.
  revert prev; induction events as [|e events IH]; intros prev.
  - simpl; rewrite andb_true_r; reflexivity.
  - unfold Hooks.handle_all in *; cbn [fold_left existsb].
    rewrite IH, handleSSEEvent_flag, negb_orb, andb_assoc; reflexivity.
Qed.

Lemma handleSSEEvent_frame event st :
  let typed t := Hooks.has_type t (Api.json_object event) in
  let st' := UseApi.handleSSEEvent event st in
  (typed "error" = false -> UseApi.error st' = UseApi.error st) /\
  (typed "done" = false -> UseApi.sessionId st' = UseApi.sessionId st) /\
  (typed "metadata" = false -> typed "cached" = false ->
   UseApi.videoInfo st' = UseApi.videoInfo st) /\
  (typed "sources" = false -> typed "done" = false ->
   UseApi.sources st' = UseApi.sources st) /\
  (typed "token" = false -> typed "cached" = false ->
   UseApi.content st' = UseApi.content st).
Proof using Type.
  clear JSON_parse TypeError_message.
  cbv zeta; unfold UseApi.handleSSEEvent, Hooks.has_type.
  destruct (Api.type event) as [t|]; simpl; [|tauto].
  case_type t; repeat split; intros; try reflexivity; discriminate.
Qed.

(** X6.  Each field of the stream state is written by its own events only: over
    a sequence without [error] events the error is kept, without [done]
    events the session id, without [metadata] and [cached] events the video
    information, without [sources] and [done] events the sources, and
    without [token] and [cached] events the content. *)
Theorem handleSSEEvent_frames events prev :
  let none t :=
    existsb (fun event => Hooks.has_type t (Api.json_object event)) events
    = false in
  let st := Hooks.handle_all events prev in
  (none "error" -> UseApi.error st = UseApi.error prev) /\
  (none "done" -> UseApi.sessionId st = UseApi.sessionId prev) /\
  (none "metadata" -> none "cached" ->
   UseApi.videoInfo st = UseApi.videoInfo prev) /\
  (none "sources" -> none "done" ->
   UseApi.sources st = UseApi.sources prev) /\
  (none "token" -> none "cached" ->
   UseApi.content st = UseApi.content prev).
Proof using Type.
  clear JSON_parse TypeError_message.
  cbv zeta; revert prev; induction events as [|e events IH]; intros prev.
  - simpl; tauto.
  - unfold Hooks.handle_all in *; cbn [fold_left existsb].
    specialize (IH (UseApi.handleSSEEvent e prev)).
    destruct IH as (I1 & I2 & I3 & I4 & I5).
    destruct (handleSSEEvent_frame e prev) as (F1 & F2 & F3 & F4 & F5).
    repeat split; intros;
      repeat match goal with
             | H : _ || _ = false |- _ => apply orb_false_elim in H as [? ?]
             end.
    + rewrite I1, F1; auto.
    + rewrite I2, F2; auto.
    + rewrite I3, F3; auto.
    + rewrite I4, F4; auto.
    + rewrite I5, F5; auto.
Qed.

Lemma handle_events_flag values st (thrown : option string) :
  UseApi.isStreaming
    (match handle_events values st with
     | (st', Some message) => Hooks.catch message st'
     | (st', None) =>
         match thrown with
         | Some message => Hooks.catch message st'
         | None => st'
         end
     end)
  = match thrown with
    | None => UseApi.isStreaming st
              && negb (existsb Hooks.ends_streaming values)
    | Some _ => false
    end.
Proof.
  revert st; induction values as [|[|e] values IH]; intros st.
  - simpl; destruct thrown; [|rewrite andb_true_r]; reflexivity.
  - simpl; destruct thrown; [|rewrite andb_false_r]; reflexivity.
  - cbn [Hooks.handle_events existsb]; rewrite IH.
    destruct thrown; [reflexivity|].
    rewrite handleSSEEvent_flag, negb_orb, andb_assoc; reflexivity.
Qed.

(** X7.  When a hook has consumed its stream, [isStreaming] is still true
    exactly when the body ended normally without a [done], [cached] or
    [error] event and without a [null] value: the end of the body alone
    does not end the streaming state.  A failed request or read always
    ends it. *)
Theorem hooks_streaming_flag (r : response) prev :
  let expected :=
    match r with
    | body chunks None =>
        negb (existsb Hooks.ends_streaming
                (omap event_of (complete_lines (join chunks))))
    | _ => false
    end in
  UseApi.isStreaming (Hooks.ask JSON_parse TypeError_message r prev)
    = expected /\
  UseApi.isStreaming (Hooks.followup JSON_parse TypeError_message r prev)
    = expected /\
  UseApi.isStreaming (Hooks.summarize JSON_parse TypeError_message r prev)
    = expected /\
  UseApi.isStreaming
    (Hooks.summarizeChapter JSON_parse TypeError_message r prev)
    = expected /\
  UseApi.isStreaming (Hooks.generate JSON_parse TypeError_message r prev)
    = expected.
Proof.
  assert (H : forall st, UseApi.isStreaming st = true ->
            UseApi.isStreaming (consume r st)
            = match r with
              | body chunks None =>
                  negb (existsb Hooks.ends_streaming
                          (omap event_of (complete_lines (join chunks))))
              | _ => false
              end).
  { intros st Hst; unfold Hooks.consume.
    destruct r as [status| |chunks failure]; [reflexivity|reflexivity|].
    rewrite streamSSE_lines, handle_events_flag, Hst.
    destruct failure; reflexivity. }
  cbv zeta; repeat split; apply H; reflexivity.
Qed.

Lemma handle_events_content values st (thrown : option string) :
  existsb Hooks.is_null values = false ->
  existsb (Hooks.has_type "cached") values = false ->
  UseApi.content
    (match handle_events values st with
     | (st', Some message) => Hooks.catch message st'
     | (st', None) =>
         match thrown with
         | Some message => Hooks.catch message st'
         | None => st'
         end
     end)
  = (UseApi.content st ++ join (omap token_content values))%string.
Proof.
  revert st; induction values as [|[|e] values IH]; intros st Hn Hc.
  - simpl; rewrite append_empty_r; destruct thrown; reflexivity.
  - discriminate Hn.
  - cbn [Hooks.handle_events existsb] in *.
    apply orb_false_elim in Hc as [Hc1 Hc2].
    rewrite (IH _ Hn Hc2), omap_step.
    unfold UseApi.handleSSEEvent, token_content, Hooks.has_type in *.
    destruct (Api.type e) as [t|]; simpl; [|reflexivity].
    simpl in Hc1.
    destruct (String.eqb_spec t "token") as [->|?]; simpl;
      [rewrite append_assoc; reflexivity|].
    rewrite Hc1; case_type t; reflexivity.
Qed.

(** X8.  With no [cached] event and no [null] value in the body, the content a
    hook ends with is the concatenation of the contents of all its token
    events, also when the read fails in the end: what was received is
    kept. *)
Theorem hooks_content (chunks : list string) (failure : option string) prev :
  let values := omap event_of (complete_lines (join chunks)) in
  existsb Hooks.is_null values = false ->
  existsb (Hooks.has_type "cached") values = false ->
  let text := join (omap token_content values) in
  UseApi.content
    (Hooks.ask JSON_parse TypeError_message (body chunks failure) prev)
    = text /\
  UseApi.content
    (Hooks.summarize JSON_parse TypeError_message (body chunks failure) prev)
    = text /\
  UseApi.content
    (Hooks.generate JSON_parse TypeError_message (body chunks failure) prev)
    = text.
Proof.
  cbv zeta; intros Hn Hc.
  unfold Hooks.ask, Hooks.summarize, Hooks.generate, Hooks.consume.
  rewrite streamSSE_lines.
  repeat split; rewrite (handle_events_content _ _ failure Hn Hc);
    reflexivity.
Qed.



End StreamStates.

Lemma handleSSEEvent_frames_witness :
  UseApi.error
    (Hooks.handle_all
       [Examples.typed_event "token" (Some "a");
        Examples.typed_event "done" None] Examples.idle)
  = UseApi.error Examples.idle.
Proof.
  apply (handleSSEEvent_frames
           [Examples.typed_event "token" (Some "a");
            Examples.typed_event "done" None] Examples.idle).
  reflexivity.
Defined.

Lemma hooks_content_witness :
  UseApi.content
    (Hooks.ask Examples.JSON_parse_sample "Cannot read properties of null"
       (body Examples.hello_chunks (Some "network error")) Examples.idle)
  = join (omap token_content
            (omap (event_of_line Examples.JSON_parse_sample)
               (complete_lines (join Examples.hello_chunks)))).
Proof.
  apply (hooks_content Examples.JSON_parse_sample
           "Cannot read properties of null" Examples.hello_chunks
           (Some "network error") Examples.idle);
    vm_compute; reflexivity.
Defined.


(** ** The list of sources *)

Section Sources.

(** X10.  A click on a source of the modal opens the same address, in the same
    way, as a click on its citation marker in a message that has no seek
    callback: entry [i] of the list is marker [[i + 1]]. *)
Theorem handleSourceClick_as_citation (srcs : list SourceReference)
    (i : nat) (source : SourceReference) :
  srcs !! i = Some source ->
  Message.handleCitationClick false (Z.of_nat i + 1) (Some srcs)
  = SourcesModal.handleSourceClick source.
Proof.
  intros H; unfold Message.handleCitationClick.
  pose proof (lookup_lt_Some _ _ _ H) as Hlt.
  destruct (Z.ltb_spec (Z.of_nat (length srcs)) (Z.of_nat i + 1)); [lia|].
  destruct (Z.ltb_spec (Z.of_nat i + 1 - 1) 0); [lia|].
  replace (Z.to_nat (Z.of_nat i + 1 - 1)) with i by lia.
  rewrite H; reflexivity.
Qed.

Lemma floor_div_60_toString (seconds : Number) (q : Z) :
  Number_lt seconds (Number_of_Z 0) = false ->
  integer_value (Math_floor (Number_div seconds (Number_of_Z 60))) = Some q ->
  q < 2 ^ 53 ->
  0 <= q /\
  Number_toString (Math_floor (Number_div seconds (Number_of_Z 60)))
  = decimal q.
Proof.
  intros Hlt Hq Hb.
  destruct seconds as [b|b| |[|] m e]; try discriminate.
  - rewrite sixty_normal_form in *; simpl in Hq.
    injection Hq as <-; split; [lia | reflexivity].
  - pose proof (div_60_sign m e) as Hs.
    destruct (Number_div (S754_finite false m e) (Number_of_Z 60))
      as [s|s| |s m' e']; try discriminate.
    + simpl in Hq; injection Hq as <-; split; [lia | reflexivity].
    + subst s; unfold Math_floor in *; simpl cond_Zopp in *.
      rewrite integer_value_integral in Hq; injection Hq as <-.
      pose proof (floor_scaled_nonneg (Z.pos m') e' ltac:(lia)).
      split; [assumption|].
      apply Number_toString_integral; lia.
Qed.

Lemma rem_60_whole (m : positive) (e z : Z) :
  integer_value (S754_finite false m e) = Some z ->
  Number_toString (Number_rem (S754_finite false m e) (Number_of_Z 60))
  = decimal (z mod 60).
Proof.
  intros Hz; rewrite sixty_normal_form; unfold Number_rem.
  set (e0 := Z.min e (-47)).
  assert (He0 : e0 <= -47 /\ e0 <= e) by (subst e0; lia).
  assert (Hp : 0 < 2 ^ (- e0)) by (apply Z.pow_pos_nonneg; lia).
  replace (8444249301319680 * 2 ^ (-47 - e0)) with (60 * 2 ^ (- e0)).
  2:{ replace (- e0) with (47 + (-47 - e0)) by lia.
      rewrite Z.pow_add_r by lia.
      change 8444249301319680 with (60 * 2 ^ 47); ring. }
  assert (HN : Z.pos m * 2 ^ (e - e0) = z * 2 ^ (- e0)).
  { unfold integer_value in Hz; simpl cond_Zopp in Hz.
    destruct (Z.leb_spec 0 e).
    - injection Hz as <-.
      replace (e - e0) with (e + - e0) by lia.
      rewrite Z.pow_add_r by lia; ring.
    - destruct (Z.eqb_spec (Z.pos m mod 2 ^ (- e)) 0) as [Hd|];
        [|discriminate Hz].
      injection Hz as <-.
      assert (Hm : Z.pos m = 2 ^ (- e) * (Z.pos m / 2 ^ (- e)))
        by (apply Z.div_exact; [apply Z.pow_nonzero; lia | exact Hd]).
      rewrite Hm at 1.
      replace (- e0) with (- e + (e - e0)) by lia.
      rewrite (Z.pow_add_r 2 (- e) (e - e0)) by lia; ring. }
  rewrite HN, Z.mul_mod_distr_r by lia.
  assert (Hk : 0 <= z mod 60 < 60) by (apply Z.mod_pos_bound; lia).
  destruct (z mod 60 * 2 ^ (- e0)) as [|p|p] eqn:E.
  - assert (z mod 60 = 0) by nia.
    replace (z mod 60) with 0; reflexivity.
  - unfold Number_toString, integer_value.
    destruct (Z.leb_spec 0 e0); [lia|].
    rewrite <- E, Z.mod_mul, Z.div_mul by lia; simpl Z.eqb; cbv iota.
    simpl cond_Zopp.
    destruct (Z.ltb_spec (Z.abs (z mod 60)) (2 ^ 53)); [reflexivity|lia].
  - nia.
Qed.

(** X11.  For a whole, non-negative number of seconds (with a minute count
    below 2^53) the label of a source is the minute count, unpadded, a
    colon, and the seconds modulo 60 on exactly two digits. *)
Theorem SourcesModal_formatTime_whole (seconds : Number) (z q : Z) :
  integer_value seconds = Some z ->
  Number_lt seconds (Number_of_Z 0) = false ->
  integer_value (Math_floor (Number_div seconds (Number_of_Z 60))) = Some q ->
  q < 2 ^ 53 ->
  0 <= q /\
  SourcesModal.formatTime seconds =
    (decimal q ++ ":" ++ padStart 2 "0" (decimal (z mod 60)))%string /\
  String.length (padStart 2 "0" (decimal (z mod 60))) = 2%nat.
Proof.
  intros Hz Hlt Hq Hb.
  destruct (floor_div_60_toString seconds q Hlt Hq Hb) as [Hq0 Hmins].
  split; [exact Hq0|]. split.
  - unfold SourcesModal.formatTime; cbv zeta; rewrite Hmins.
    do 3 f_equal.
    destruct seconds as [b|b| |[|] m e]; try discriminate.
    + injection Hz as <-; rewrite sixty_normal_form; reflexivity.
    + apply rem_60_whole, Hz.
  - apply two_digits, Z.mod_pos_bound; lia.
Qed.

End Sources.

Lemma handleSourceClick_as_citation_witness :
  Message.handleCitationClick false (Z.of_nat 0 + 1) (Some [Examples.lecture])
  = SourcesModal.handleSourceClick Examples.lecture.
Proof.
  apply (handleSourceClick_as_citation [Examples.lecture] 0 Examples.lecture).
  reflexivity.
Defined.

Lemma SourcesModal_formatTime_whole_witness :
  SourcesModal.formatTime (Number_of_Z 754) =
    (decimal 12 ++ ":" ++ padStart 2 "0" (decimal (754 mod 60)))%string.
Proof.
  apply (SourcesModal_formatTime_whole (Number_of_Z 754) 754 12);
    [vm_compute; reflexivity | reflexivity | vm_compute; reflexivity | lia].
Defined.

(** ** The quiz: store and display *)

Section QuizRound.

Import QuizStore QuizView.

Variable answer_for : QuizQuestion -> string.
Variable result_for : QuizQuestion -> QuizValidationResult.

Local Abbreviation answer_all := (QuizStore.answer_all answer_for).
Local Abbreviation validate_all := (QuizStore.validate_all result_for).

Lemma answer_all_lookup qs st (k : Z) :
  is_Some (userAnswers st !! k) \/ In k (map question_index qs) ->
  is_Some (userAnswers (answer_all qs st) !! k).
Proof.
  revert st; induction qs as [|q qs IH]; intros st H.
  - destruct H as [H|[]]; exact H.
  - apply IH; cbn [setAnswer userAnswers].
    rewrite lookup_insert_is_Some.
    destruct (decide (question_index q = k)) as [E|N]; [auto|].
    destruct H as [H|[H|H]]; [auto | contradiction | auto].
Qed.

Lemma validate_all_lookup qs st (k : Z) :
  is_Some (validationResults st !! k) \/ In k (map question_index qs) ->
  is_Some (validationResults (validate_all qs st) !! k).
Proof.
  revert st; induction qs as [|q qs IH]; intros st H.
  - destruct H as [H|[]]; exact H.
  - apply IH; cbn [addValidationResult validationResults].
    rewrite lookup_insert_is_Some.
    destruct (decide (question_index q = k)) as [E|N]; [auto|].
    destruct H as [H|[H|H]]; [auto | contradiction | auto].
Qed.

Lemma validate_all_frame qs st :
  userAnswers (validate_all qs st) = userAnswers st /\
  selectedChapters (validate_all qs st) = selectedChapters st.
Proof.
  revert st; induction qs as [|q qs IH]; intros st; [split; reflexivity|].
  destruct (IH (addValidationResult (question_index q) (result_for q) st))
    as [I1 I2].
  unfold QuizStore.validate_all in *; cbn [fold_left].
  rewrite I1, I2; split; reflexivity.
Qed.

Lemma answer_all_frame qs st :
  selectedChapters (answer_all qs st) = selectedChapters st.
Proof.
  revert st; induction qs as [|q qs IH]; intros st; [reflexivity|].
  exact (IH (setAnswer (question_index q) (answer_for q) st)).
Qed.

(** X13.  From any state of the store, once [setAnswer] has been called for each
    question of a non-empty quiz and [addValidationResult] for each, the
    display finds all questions answered, the validation complete and a
    score that is not null; after [resetQuiz] it finds none of the three,
    and the selected chapters are still those of the start. *)
Theorem quiz_round (quiz : Quiz) (qs : list QuizQuestion) (st : QuizState) :
  questions quiz = Some qs ->
  qs <> [] ->
  let done := validate_all qs (answer_all qs st) in
  allAnswered (Some quiz) (userAnswers done) = true /\
  validationComplete (Some quiz) (validationResults done) = true /\
  is_Some (calculateScore (Some quiz) (validationResults done)) /\
  allAnswered (Some quiz) (userAnswers (resetQuiz done)) = false /\
  validationComplete (Some quiz) (validationResults (resetQuiz done))
    = false /\
  calculateScore (Some quiz) (validationResults (resetQuiz done)) = None /\
  selectedChapters (resetQuiz done) = selectedChapters st.
Proof.
  intros Hq Hne; cbv zeta.
  unfold allAnswered, validationComplete, calculateScore; rewrite Hq.
  destruct (validate_all_frame qs (answer_all qs st)) as [Ea Ec].
  split; [|split; [|split; [|split; [|split; [|split]]]]].
  - rewrite Ea; apply forallb_forall; intros q Hin.
    apply bool_decide_eq_true, answer_all_lookup; right.
    apply in_map, Hin.
  - apply forallb_forall; intros q Hin.
    apply bool_decide_eq_true, validate_all_lookup; right.
    apply in_map, Hin.
  - destruct qs as [|q qs']; [contradiction|].
    rewrite (size_lookup_nonzero _ (question_index q)); [eexists; reflexivity|].
    apply validate_all_lookup; right; left; reflexivity.
  - destruct qs as [|q qs']; [contradiction|].
    cbn [resetQuiz userAnswers forallb]; rewrite lookup_empty.
    reflexivity.
  - destruct qs as [|q qs']; [contradiction|].
    cbn [resetQuiz validationResults forallb]; rewrite lookup_empty.
    reflexivity.
  - reflexivity.
  - cbn [resetQuiz selectedChapters]; rewrite Ec; apply answer_all_frame.
Qed.

Lemma fold_add_score_ext results results' qs (acc : Number) :
  (forall q, In q qs ->
     results' !! question_index q = results !! question_index q) ->
  fold_left (add_score results') qs acc = fold_left (add_score results) qs acc.
Proof.
  revert acc; induction qs as [|q qs IH]; intros acc H; [reflexivity|].
  cbn [fold_left]; unfold add_score at 2 4.
  rewrite (H q) by (left; reflexivity).
  apply IH; intros q' Hq'; apply H; right; exact Hq'.
Qed.

(** X14.  A stored result whose index no question of the quiz has does not count
    in the score, except that it makes the store non-empty: with another
    result already stored, adding it leaves the score as it is. *)
Theorem calculateScore_foreign_result (quiz : Quiz)
    (results : ValidationResults) (k : Z) (r : QuizValidationResult) :
  (forall q qs, questions quiz = Some qs -> In q qs ->
     question_index q <> k) ->
  size results <> 0%nat ->
  calculateScore (Some quiz) (<[k := r]> results)
  = calculateScore (Some quiz) results.
Proof.
  intros Hk Hs; unfold calculateScore.
  destruct (questions quiz) as [qs|]; [|reflexivity].
  rewrite (size_lookup_nonzero (<[k := r]> results) k)
    by (rewrite lookup_insert_is_Some; auto).
  apply Nat.eqb_neq in Hs; rewrite Hs; cbv zeta.
  rewrite (fold_add_score_ext results (<[k := r]> results)); [reflexivity|].
  intros q Hin; apply lookup_insert_ne.
  intros E; exact (Hk q qs eq_refl Hin (eq_sym E)).
Qed.

(** X15.  For a question that is not multiple-choice, the colour of its score
    badge goes with the status of its feedback box: green with [success],
    yellow with [warning], red with [error]; a score that is missing, zero
    or [NaN] gives red and [error]. *)
Theorem badge_matches_alert (results : ValidationResults)
    (q : QuizQuestion) (r : QuizValidationResult) :
  results !! question_index q = Some r ->
  String.eqb (question_type q) "mcq" = false ->
  scoreBadgeColor (questionScore results q)
  = (if String.eqb (getAlertStatus (Some r)) "success"
     then "bg-green-100 dark:bg-green-900 text-green-800 dark:text-green-200"
     else if String.eqb (getAlertStatus (Some r)) "warning"
     then "bg-yellow-100 dark:bg-yellow-900 text-yellow-800 dark:text-yellow-200"
     else "bg-red-100 dark:bg-red-900 text-red-800 dark:text-red-200") /\
  (Number_truthy (number_or (llm_score r) (Number_of_Z 0)) = false ->
   getAlertStatus (Some r) = "error").
Proof.
  intros Hr Hm; unfold questionScore, getAlertStatus, score_at_least.
  rewrite Hr, Hm; cbn [scoreBadgeColor mbind option_bind].
  destruct (llm_score r) as [x|]; cbn [number_or];
    [|split; reflexivity].
  destruct (Number_truthy x) eqn:T; cbn [andb].
  - split; [|intros H; rewrite T in H; discriminate H].
    destruct (Number_ge x (Number_of_Z 70)); [reflexivity|].
    destruct (Number_ge x (Number_of_Z 50)); reflexivity.
  - split; reflexivity.
Qed.

End QuizRound.

Lemma quiz_round_witness :
  QuizView.allAnswered (Some Examples.quiz_2)
    (QuizStore.userAnswers
       (QuizStore.validate_all (fun _ => Examples.open_result 80)
          [Examples.open_question 0; Examples.open_question 1]
          (QuizStore.answer_all (fun _ => "A")
             [Examples.open_question 0; Examples.open_question 1]
             QuizStore.initial))) = true.
Proof.
  apply (quiz_round (fun _ => "A") (fun _ => Examples.open_result 80)
           Examples.quiz_2
           [Examples.open_question 0; Examples.open_question 1]
           QuizStore.initial); [reflexivity | discriminate].
Defined.

Lemma calculateScore_foreign_result_witness :
  calculateScore (Some Examples.quiz_2)
    (<[7 := Examples.open_result 100]> Examples.results_2)
  = calculateScore (Some Examples.quiz_2) Examples.results_2.
Proof.
  apply (calculateScore_foreign_result Examples.quiz_2 Examples.results_2 7
           (Examples.open_result 100)).
  - intros q qs [= <-] [<- | [<- | []]]; discriminate.
  - vm_compute; discriminate.
Defined.

Lemma badge_matches_alert_witness :
  QuizView.scoreBadgeColor
    (questionScore Examples.results_2 (Examples.open_question 0))
  = "bg-red-100 dark:bg-red-900 text-red-800 dark:text-red-200".
Proof.
  apply (proj1 (badge_matches_alert Examples.results_2
                  (Examples.open_question 0) (Examples.open_result 14)
                  ltac:(vm_compute; reflexivity) ltac:(reflexivity))).
Defined.

(** ** Sending from the input field *)

Section Sending.

Import ChatInputSend.

Variable trim : string -> string.

(** X16.  [handleSend] never calls [onSend] while a response is streaming and
    never passes it the empty string; when it does not call it the input
    field is left as it is.  A disabled send button means that a click would
    send nothing, and in the three modes of the mode button the converse
    holds as well: the button is enabled exactly when [handleSend] sends.
    The Enter key without Shift does what the button does. *)
Theorem handleSend_gating (currentMode : string)
    (selectedVideo : option string) (isStreaming : bool) (input : string) :
  let result := handleSend trim currentMode selectedVideo isStreaming input in
  let disabled :=
    send_disabled trim currentMode selectedVideo isStreaming input in
  (isStreaming = true -> result = (None, input)) /\
  fst result <> Some "" /\
  (fst result = None -> snd result = input) /\
  (disabled = true -> fst result = None) /\
  (In currentMode ChatInput.modes ->
   fst result = None -> disabled = true) /\
  handleKeyPress trim "Enter" false currentMode selectedVideo isStreaming
    input = result.
Proof.
  cbv zeta; unfold handleSend, send_disabled, handleKeyPress.
  split; [|split; [|split; [|split; [|split]]]].
  - intros ->; rewrite !andb_false_r; cbn [negb].
    repeat destruct (String.eqb currentMode _); reflexivity.
  - destruct (String.eqb currentMode "video_summary").
    { destruct (selected selectedVideo && negb isStreaming); discriminate. }
    destruct (String.eqb currentMode "quiz").
    { destruct (negb isStreaming); [|discriminate].
      cbn [fst]; destruct (trim input); discriminate. }
    destruct (truthy (trim input)) eqn:T; cbn [andb]; [|discriminate].
    destruct (negb isStreaming); [|discriminate].
    cbn [fst]; destruct (trim input); discriminate.
  - destruct (String.eqb currentMode "video_summary").
    { destruct (selected selectedVideo && negb isStreaming);
        [discriminate | reflexivity]. }
    destruct (String.eqb currentMode "quiz").
    { destruct (negb isStreaming); [discriminate | reflexivity]. }
    destruct (truthy (trim input) && negb isStreaming);
      [discriminate | reflexivity].
  - destruct (String.eqb currentMode "video_summary").
    { destruct (selected selectedVideo), isStreaming;
        try discriminate; reflexivity. }
    destruct (String.eqb currentMode "quiz").
    { intros ->; reflexivity. }
    destruct (String.eqb currentMode "qa").
    + destruct (truthy (trim input)), isStreaming;
        try discriminate; reflexivity.
    + intros ->; rewrite andb_false_r; reflexivity.
  - intros Hm.
    destruct Hm as [<- | [<- | [<- | []]]]; cbn [String.eqb Ascii.eqb];
      cbn [Bool.eqb].
    + destruct (truthy (trim input)), isStreaming;
        try discriminate; reflexivity.
    + destruct (selected selectedVideo), isStreaming;
        try discriminate; reflexivity.
    + destruct isStreaming; try discriminate; reflexivity.
  - reflexivity.
Qed.

End Sending.

(** ** Resizing the panels *)

Lemma SFltb_irrefl (x : Number) : SFltb x x = false.
Proof.
  unfold SFltb; destruct x as [s|s| |s m e]; cbn [SFcompare];
    try reflexivity.
  - destruct s; reflexivity.
  - rewrite Z.compare_refl, Pos.compare_cont_refl.
    destruct s; reflexivity.
Qed.

(** X18.  While a resize is in progress neither panel is set below its minimum
    size, wherever the pointer is and whatever the size of the container
    (zero included), as long as the two minimum sizes leave room for each
    other within the 100 percent. *)
Theorem handleMouseMove_minimum
    (containerSize currentPos startPos : Number)
    (startSizes : Number * Number) (minFirst minSecond : Number) :
  let sizes :=
    ResizablePanels.handleMouseMove containerSize currentPos startPos
      startSizes (minFirst, minSecond) in
  (Number_lt (Number_sub (Number_of_Z 100) minSecond) minFirst = false ->
   Number_lt (fst sizes) minFirst = false) /\
  (Number_lt (Number_sub (Number_of_Z 100) minFirst) minSecond = false ->
   Number_lt (snd sizes) minSecond = false).
Proof.
  cbv zeta; unfold ResizablePanels.handleMouseMove.
  destruct startSizes as [firstSize secondSize]; cbv zeta.
  destruct (Number_lt (Number_add firstSize _) minFirst) eqn:E1;
    [|destruct (Number_lt (Number_sub secondSize _) minSecond) eqn:E2];
    cbn [fst snd]; split; intros H;
    try assumption; apply SFltb_irrefl.
Qed.

(** ** Toasts *)

Section Toasts.

Import Toast.

Lemma to_int_nonnil (a : Z) :
  Z.to_int a <> Decimal.Pos Decimal.Nil /\
  Z.to_int a <> Decimal.Neg Decimal.Nil.
Proof.
  destruct a as [|p|p]; split; try discriminate; intros [= H];
    exact (DecimalPos.Unsigned.to_uint_nonnil p H).
Qed.

Lemma decimal_inj (a b : Z) : decimal a = decimal b -> a = b.
Proof.
  unfold decimal; intros H.
  apply (f_equal NilZero.int_of_string) in H.
  destruct (to_int_nonnil a), (to_int_nonnil b).
  rewrite !NilZero.isi in H by assumption.
  injection H as H; exact (DecimalZ.to_int_inj a b H).
Qed.

Lemma toast_id_inj (a b : Z) :
  0 <= a < 2 ^ 53 -> 0 <= b < 2 ^ 53 ->
  toast_id (Number_of_Z a) = toast_id (Number_of_Z b) -> a = b.
Proof.
  unfold toast_id; intros Ha Hb H; apply decimal_inj.
  rewrite !Number_toString_of_Z in H by assumption.
  cbn [String.append] in H; injection H as H; exact H.
Qed.

Lemma filter_all {A} (f : A -> bool) (l : list A) :
  (forall x, In x l -> f x = true) -> List.filter f l = l.
Proof.
  induction l as [|x l IH]; intros H; [reflexivity|].
  cbn [List.filter]; rewrite (H x) by (left; reflexivity).
  rewrite IH; [reflexivity|]; intros y Hy; apply H; right; exact Hy.
Qed.

(** X19.  The ids given by [toast] are fresh as long as the counter is a
    whole number below 2^53: removing the toast just shown, by the id
    [toast] returned, gives back exactly the list of before.  The list
    stays one of toasts numbered by earlier values of the counter through
    any [removeToast], and through [toast] as long as the next value of the
    counter is below 2^53 too. *)
Theorem toast_then_remove (options : ToastOptions) (st : ToastState)
    (n : Z) :
  numbered n st ->
  let shown := snd (toast options st) in
  let i := fst (fst (toast options st)) in
  i = toast_id (Number_of_Z n) /\
  toasts (removeToast i shown) = toasts st /\
  (n + 1 < 2 ^ 53 -> numbered (n + 1) shown) /\
  (forall j, numbered n (removeToast j st)).
Proof.
  intros (Hc & H0 & Hn); cbv zeta; cbn [toast fst snd].
  rewrite Hc; split; [reflexivity|]. split; [|split].
  - cbn [removeToast toasts]; rewrite List.filter_app.
    cbn [List.filter id]; rewrite String.eqb_refl; cbn [negb].
    rewrite app_nil_r; apply filter_all; intros t Ht.
    destruct (Hn t Ht) as (k & Hk & ->).
    destruct (String.eqb_spec (toast_id (Number_of_Z k))
                (toast_id (Number_of_Z n))) as [E|]; [|reflexivity].
    apply toast_id_inj in E; lia.
  - intros Hnext; split; [|split]; cbn [toastIdCounter toasts].
    + apply Number_add_one; lia.
    + lia.
    + intros t Ht; apply in_app_or in Ht as [Ht|[<-|[]]].
      * destruct (Hn t Ht) as (k & Hk & E); exists k; split; [lia | exact E].
      * exists n; split; [lia | reflexivity].
  - intros j; split; [exact Hc|]. split; [exact H0|].
    cbn [removeToast toasts toastIdCounter]; intros t Ht.
    apply List.filter_In in Ht as [Ht _]; exact (Hn t Ht).
Qed.

(** At 2^53 the counter stops counting: [toast] leaves it as it is and
    gives the same id again. *)
Lemma toast_counter_stops (options : ToastOptions) (l : list Toast) :
  let st := {| toastIdCounter := Number_of_Z (2 ^ 53); toasts := l |} in
  toastIdCounter (snd (toast options st)) = toastIdCounter st /\
  fst (fst (toast options (snd (toast options st))))
  = fst (fst (toast options st)).
Proof.
  cbv zeta; cbn [toast fst snd toastIdCounter].
  assert (E : Number_add (Number_of_Z (2 ^ 53)) (Number_of_Z 1)
              = Number_of_Z (2 ^ 53)) by (vm_compute; reflexivity).
  rewrite E; split; reflexivity.
Qed.

(** X20.  The removal timer of a toast: it is set unless the duration asked for is
    negative, and its delay is then the duration of the toast, which is
    greater than zero; a duration that is missing, zero or [NaN] counts as
    3000 milliseconds. *)
Theorem toast_timer (options : ToastOptions) (st : ToastState) :
  let timer := snd (fst (toast options st)) in
  (forall d, timer = Some d ->
     Number_gt d (Number_of_Z 0) = true /\
     d = number_or (duration options) (Number_of_Z 3000)) /\
  (timer = None <->
   exists d, duration options = Some d /\
             Number_lt d (Number_of_Z 0) = true) /\
  (number_or (duration options) (Number_of_Z 0) = Number_of_Z 0 ->
   timer = Some (Number_of_Z 3000)).
Proof.
  cbv zeta; cbn [toast fst snd toast_duration].
  destruct (duration options) as [d|]; cbn [number_or].
  - destruct d as [s|s| |s m e]; cbn [Number_truthy].
    + split; [|split].
      * intros d [= <-]; split; reflexivity.
      * split; [discriminate|]; intros (d & [= <-] & H); discriminate H.
      * reflexivity.
    + destruct s.
      * split; [|split].
        -- intros d H; discriminate H.
        -- split; [intros _; eexists; split; reflexivity|reflexivity].
        -- intros H; discriminate H.
      * split; [|split].
        -- intros d [= <-]; split; reflexivity.
        -- split; [discriminate|]; intros (d & [= <-] & H); discriminate H.
        -- intros H; discriminate H.
    + split; [|split].
      * intros d [= <-]; split; reflexivity.
      * split; [discriminate|]; intros (d & [= <-] & H); discriminate H.
      * reflexivity.
    + destruct s.
      * split; [|split].
        -- intros d H; discriminate H.
        -- split; [intros _; eexists; split; reflexivity|reflexivity].
        -- intros H; discriminate H.
      * split; [|split].
        -- intros d [= <-]; split; reflexivity.
        -- split; [discriminate|]; intros (d & [= <-] & H); discriminate H.
        -- intros H; discriminate H.
  - split; [|split].
    + intros d [= <-]; split; reflexivity.
    + split; [discriminate|]; intros (d & H & _); discriminate H.
    + reflexivity.
Qed.

End Toasts.

Lemma toast_then_remove_witness :
  Toast.toasts
    (Toast.removeToast "toast-0"
       (snd (Toast.toast
               {| Toast.title := "Saved"; Toast.description := None;
                  Toast.status := None; Toast.duration := None;
                  Toast.isClosable := None |}
               Toast.initial)))
  = [].
Proof.
  apply (toast_then_remove
           {| Toast.title := "Saved"; Toast.description := None;
              Toast.status := None; Toast.duration := None;
              Toast.isClosable := None |}
           Toast.initial 0).
  split; [reflexivity|]. split; [lia | intros t []].
Defined.

(** ** The colour mode *)

(** X21.  What [toggleColorMode] stores is read back on the next mount as the mode
    it switched to, whatever the system prefers; toggling twice comes back
    to the mode of the start; and a stored item other than [dark] that is
    not empty means light, whatever the system prefers. *)
Theorem toggleColorMode_stored (isDark prefersDark : bool) :
  let toggled := ColorModeSwitcher.toggleColorMode isDark in
  ColorModeSwitcher.shouldBeDark (snd toggled) prefersDark = fst toggled /\
  fst (ColorModeSwitcher.toggleColorMode (fst toggled)) = isDark /\
  (forall stored, stored <> "dark" -> stored <> "" ->
     ColorModeSwitcher.shouldBeDark (Some stored) prefersDark = false).
Proof.
  cbv zeta; split; [|split].
  - destruct isDark; reflexivity.
  - destruct isDark; reflexivity.
  - intros stored Hd He; unfold ColorModeSwitcher.shouldBeDark.
    destruct (String.eqb_spec stored "dark"); [contradiction|].
    destruct stored; [contradiction | reflexivity].
Qed.


(** ** The parts of a text with citation markers *)

Section Parts.

Variable sources : list SourceReference.








(** X23.  A text without an opening bracket, not empty, is rendered as one part:
    the text as it is. *)
Theorem processTextWithCitations_plain (text : string) :
  all_chars not_bracket text = true ->
  text <> EmptyString ->
  Message.processTextWithCitations text sources
  = fragment [text_node text].
Proof.
  intros H Hne; unfold Message.processTextWithCitations.
  pose proof (scan_plain_prefix sources text EmptyString EmptyString H) as E.
  rewrite append_empty_r in E; rewrite E.
  destruct text; [contradiction | reflexivity].
Qed.

End Parts.

Lemma processTextWithCitations_plain_witness :
  Message.processTextWithCitations "see the lecture" [Examples.lecture]
  = fragment [text_node "see the lecture"].
Proof.
  apply (processTextWithCitations_plain [Examples.lecture] "see the lecture");
    [reflexivity | discriminate].
Defined.

(** ** The chat store *)

Section ChatStoreActions.

Context {ChatMessage ChatSession : Type}.

Implicit Types (st : ChatStore.ChatState ChatMessage ChatSession)
  (actions : list (ChatStore.action ChatMessage)).

Lemma run_no_reset actions st :
  forallb (fun a => negb (ChatStore.is_reset a)) actions = true ->
  ChatStore.streamingContent (ChatStore.run actions st)
  = (ChatStore.streamingContent st
     ++ join (omap ChatStore.appended actions))%string.
Proof.
  revert st; induction actions as [|a actions IH]; intros st H.
  - simpl; rewrite append_empty_r; reflexivity.
  - cbn [forallb] in H; apply andb_prop in H as [Ha H].
    unfold ChatStore.run in *; cbn [fold_left]; rewrite (IH _ H).
    destruct a; [reflexivity| |discriminate Ha].
    cbn [ChatStore.step ChatStore.appendStreamingContent
         ChatStore.streamingContent omap list_omap ChatStore.appended].
    change (join (content :: ?l)) with (content ++ join l)%string.
    rewrite append_assoc; reflexivity.
Qed.

Lemma run_frame actions st :
  let st' := ChatStore.run actions st in
  ChatStore.messages st'
  = (ChatStore.messages st ++ omap ChatStore.added actions)%list /\
  ChatStore.currentMode st' = ChatStore.currentMode st /\
  ChatStore.currentSession st' = ChatStore.currentSession st /\
  ChatStore.isStreaming st' = ChatStore.isStreaming st /\
  ChatStore.selectedChapters st' = ChatStore.selectedChapters st /\
  ChatStore.selectedVideo st' = ChatStore.selectedVideo st.
Proof.
  cbv zeta; revert st; induction actions as [|a actions IH]; intros st.
  - simpl; rewrite app_nil_r; repeat split; reflexivity.
  - unfold ChatStore.run in *; cbn [fold_left].
    destruct (IH (ChatStore.step st a)) as (-> & -> & -> & -> & -> & ->).
    destruct a; cbn; rewrite <- ?app_assoc; repeat split; reflexivity.
Qed.

(** X24.  Whatever calls of [addMessage], [appendStreamingContent] and
    [resetStreamingContent] are made, in whatever order: the streaming
    content is the concatenation, in order, of what was appended since the
    last reset; the messages are those of before followed by the ones
    added, in order; and no other field of the store changes. *)
Theorem chat_store_actions actions actions' st :
  forallb (fun a => negb (ChatStore.is_reset a)) actions' = true ->
  let st' :=
    ChatStore.run (actions ++ ChatStore.reset_content :: actions') st in
  ChatStore.streamingContent st'
  = join (omap ChatStore.appended actions') /\
  ChatStore.messages st'
  = (ChatStore.messages st
     ++ omap ChatStore.added (actions ++ actions'))%list /\
  ChatStore.currentMode st' = ChatStore.currentMode st /\
  ChatStore.currentSession st' = ChatStore.currentSession st /\
  ChatStore.isStreaming st' = ChatStore.isStreaming st /\
  ChatStore.selectedChapters st' = ChatStore.selectedChapters st /\
  ChatStore.selectedVideo st' = ChatStore.selectedVideo st.
Proof.
  intros H; cbv zeta; split.
  - unfold ChatStore.run; rewrite fold_left_app; cbn [fold_left].
    exact (run_no_reset actions' _ H).
  - destruct (run_frame (actions ++ ChatStore.reset_content :: actions') st)
      as (E & F).
    split; [|exact F].
    rewrite E, !omap_app; reflexivity.
Qed.

End ChatStoreActions.

Lemma chat_store_actions_witness :
  ChatStore.streamingContent
    (ChatStore.run
       ([ChatStore.append_content "old"] ++
        ChatStore.reset_content ::
        [ChatStore.append_content "Hel"; ChatStore.add_message 1%nat;
         ChatStore.append_content "lo"])
       {| ChatStore.currentMode := "qa"; ChatStore.messages := [];
          ChatStore.currentSession := @None unit;
          ChatStore.isStreaming := true;
          ChatStore.streamingContent := "stale";
          ChatStore.selectedChapters := [];
          ChatStore.selectedVideo := None |})
  = join (omap ChatStore.appended
            [ChatStore.append_content "Hel"; ChatStore.add_message 1%nat;
             ChatStore.append_content "lo"]).
Proof.
  apply (chat_store_actions
           [ChatStore.append_content "old"]
           [ChatStore.append_content "Hel"; ChatStore.add_message 1%nat;
            ChatStore.append_content "lo"]).
  reflexivity.
Defined.

(** ** The stepper of the number of quiz questions *)

Lemma SFltb_asym (x y : Number) : SFltb x y = true -> SFltb y x = false.
Proof.
  unfold SFltb; destruct x as [s|s| |s m e], y as [s'|s'| |s' m' e'];
    cbn [SFcompare]; try (destruct s); try (destruct s');
    try reflexivity; try discriminate.
  - rewrite (Z.compare_antisym e e').
    pose proof (Pos.compare_cont_antisym m m' Eq) as A; cbn [CompOpp] in A.
    rewrite <- A.
    destruct (e ?= e'), (Pos.compare_cont Eq m m'); cbn [CompOpp];
      try reflexivity; discriminate.
  - rewrite (Z.compare_antisym e e').
    pose proof (Pos.compare_cont_antisym m m' Eq) as A; cbn [CompOpp] in A.
    rewrite <- A.
    destruct (e ?= e'), (Pos.compare_cont Eq m m'); cbn [CompOpp];
      try reflexivity; discriminate.
Qed.

Lemma Math_min_upper (a b : Number) : Number_lt a (Math_min a b) = false.
Proof.
  unfold Math_min, Number_lt.
  destruct (isNaN a || isNaN b); [destruct a; reflexivity|].
  destruct (SFltb b a) eqn:E; [apply SFltb_asym, E|].
  destruct a as [[|]|s| |s m e], b as [[|]|s'| |s' m' e'];
    try apply SFltb_irrefl; reflexivity.
Qed.

Lemma Math_max_lower (a b : Number) : Number_lt (Math_max a b) a = false.
Proof.
  unfold Math_max, Number_lt.
  destruct (isNaN a || isNaN b); [reflexivity|].
  destruct (SFltb a b) eqn:E; [apply SFltb_asym, E|].
  destruct a as [[|]|s| |s m e], b as [[|]|s'| |s' m' e'];
    try apply SFltb_irrefl; reflexivity.
Qed.

(** X17.  Whatever the number of questions currently is, also one typed outside
    the range, the upper button never passes on a number above 20 and the
    lower button never one below 1.  On a whole number from 1 to 20 a button
    that is not disabled adds or takes away exactly one, so the number stays
    a whole number from 1 to 20; both buttons are disabled while a response
    is streaming. *)
Theorem quiz_stepper_range (quizNumQuestions : Number) :
  Number_lt (Number_of_Z 20) (QuizStepper.increment quizNumQuestions)
    = false /\
  Number_lt (QuizStepper.decrement quizNumQuestions) (Number_of_Z 1)
    = false /\
  QuizStepper.increment_disabled true quizNumQuestions = true /\
  QuizStepper.decrement_disabled true quizNumQuestions = true /\
  (forall z, 1 <= z <= 20 -> quizNumQuestions = Number_of_Z z ->
     (QuizStepper.increment_disabled false quizNumQuestions = false ->
      z < 20 /\
      QuizStepper.increment quizNumQuestions = Number_of_Z (z + 1)) /\
     (QuizStepper.decrement_disabled false quizNumQuestions = false ->
      1 < z /\
      QuizStepper.decrement quizNumQuestions = Number_of_Z (z - 1))).
Proof.
  split; [apply Math_min_upper|].
  split; [apply Math_max_lower|].
  split; [reflexivity|]. split; [reflexivity|].
  intros z Hz ->.
  rewrite <- (Z2Nat.id z) by lia.
  assert (Hn : (1 <= Z.to_nat z <= 20)%nat) by lia.
  revert Hn; generalize (Z.to_nat z); clear z Hz; intros n Hn.
  destruct n as [|n]; [lia|].
  do 20 (destruct n as [|n];
         [split; intros H; first [discriminate H | split; [lia|reflexivity]]|]).
  lia.
Qed.

(** ** The three time labels *)

Lemma decimal_two_digits (q : Z) :
  10 <= q -> (2 <= String.length (decimal q))%nat.
Proof.
  intros Hq.
  pose proof (decimal_digits q ltac:(lia)) as Hd.
  destruct (decimal q) as [|c [|c' s]] eqn:E; [| |simpl; lia].
  - destruct q as [|p|p]; try lia.
    unfold decimal, NilZero.string_of_int in E; cbn [Z.to_int] in E.
    unfold NilZero.string_of_uint in E.
    destruct (Pos.to_uint p); discriminate E.
  - cbn [all_chars] in Hd; apply andb_prop in Hd as [Hc _].
    destruct c as [[] [] [] [] [] [] [] []]; try discriminate Hc;
      match type of E with
      | _ = ?s =>
          first [ change s with (decimal 0) in E
                | change s with (decimal 1) in E
                | change s with (decimal 2) in E
                | change s with (decimal 3) in E
                | change s with (decimal 4) in E
                | change s with (decimal 5) in E
                | change s with (decimal 6) in E
                | change s with (decimal 7) in E
                | change s with (decimal 8) in E
                | change s with (decimal 9) in E ]
      end; apply decimal_inj in E; lia.
Qed.

Lemma floorZ_whole (m : positive) (e z : Z) :
  integer_value (S754_finite false m e) = Some z ->
  floor_scaled (Z.pos m) e = z.
Proof.
  unfold integer_value, floor_scaled; cbn [cond_Zopp].
  destruct (0 <=? e); [intros [= <-]; reflexivity|].
  destruct (Z.pos m mod 2 ^ (- e) =? 0); [|discriminate].
  intros [= <-]; reflexivity.
Qed.

(** X12.  The player, the list of sources and the quiz show a whole,
    non-negative number of seconds, whose count of minutes is below 2^53,
    in the same way but for the minutes: the player pads them to two
    digits, the other two do not.  From ten minutes on the labels of the
    player and of the list are the same; below, the player has one more [0]
    in front.  The label of the quiz, zero seconds included, is that of the
    list in parentheses. *)
Theorem time_labels (seconds : Number) (z q : Z) :
  integer_value seconds = Some z ->
  Number_lt seconds (Number_of_Z 0) = false ->
  integer_value (Math_floor (Number_div seconds (Number_of_Z 60))) = Some q ->
  q < 2 ^ 53 ->
  (10 <= q -> formatTime seconds = SourcesModal.formatTime seconds) /\
  (q < 10 ->
   formatTime seconds = ("0" ++ SourcesModal.formatTime seconds)%string) /\
  (forall video_id video_url link label,
     QuizView.renderVideoSource video_id video_url (Some seconds)
       = Some (link, label) ->
     label = ("(" ++ SourcesModal.formatTime seconds ++ ")")%string).
Proof.
  intros Hz Hlt Hq Hb.
  destruct (floor_div_60_toString seconds q Hlt Hq Hb) as [Hq0 Hmins].
  assert (Hsecs : Number_toString
                    (Math_floor (Number_rem seconds (Number_of_Z 60)))
                  = Number_toString (Number_rem seconds (Number_of_Z 60))).
  { destruct seconds as [b|b| |[|] m e]; try discriminate.
    - rewrite sixty_normal_form; reflexivity.
    - rewrite (rem_60_whole m e z Hz), floor_rem_60.
      rewrite (floorZ_whole m e z Hz).
      apply Number_toString_integral.
      pose proof (Z.mod_pos_bound z 60 ltac:(lia)); lia. }
  assert (Hfin : negb (isFinite seconds) || isNaN seconds = false)
    by (destruct seconds; try discriminate; reflexivity).
  unfold formatTime, SourcesModal.formatTime; rewrite Hfin; cbv zeta.
  rewrite Hsecs, Hmins.
  split; [|split].
  - intros H10; unfold padStart at 1.
    pose proof (decimal_two_digits q H10) as L.
    apply Nat.leb_le in L; rewrite L; reflexivity.
  - intros H10; rewrite <- (Z2Nat.id q) by lia.
    assert (Hn : (Z.to_nat q < 10)%nat) by lia.
    revert Hn; generalize (Z.to_nat q); intros n Hn.
    do 10 (destruct n as [|n]; [reflexivity|]); lia.
  - intros video_id video_url link label.
    unfold QuizView.renderVideoSource.
    destruct (string_or video_id ""); [discriminate|].
    destruct (string_or video_url ""); [discriminate|].
    cbn [number_or]; destruct (Number_truthy seconds) eqn:Ht; cbv zeta.
    + intros [= _ <-].
      change (binary_round prec emax false 60 0) with (Number_of_Z 60).
      rewrite Hmins, !append_assoc; reflexivity.
    + destruct seconds as [[|]|b| |sg m e]; try discriminate;
        rewrite sixty_normal_form in Hq; injection Hq as <-;
        intros [= _ <-]; vm_compute; reflexivity.
Qed.

Lemma time_labels_witness :
  formatTime (Number_of_Z 754) = SourcesModal.formatTime (Number_of_Z 754).
Proof.
  apply (time_labels (Number_of_Z 754) 754 12);
    [vm_compute; reflexivity | reflexivity | vm_compute; reflexivity
    | lia | lia].
Defined.
